(** * moltworker: the gateway supervisor of [src/gateway/process.ts]

    A shallow embedding of [preseedOpenClawConfig],
    [findExistingMoltbotProcess] and [ensureMoltbotGateway], and the
    properties of the supervisor that the specification states.

    The sandbox runtime ([@cloudflare/sandbox]) is an interface of the
    program: it is a type class over a hidden sandbox state, so every
    theorem holds for every behaviour of the sandbox.  Asynchronous
    functions are computations in a monad that threads the sandbox state,
    collects the calls issued to the sandbox (the trace) and either returns
    a value or throws. *)

From Stdlib Require Import String Ascii ZArith List Bool Lia DecimalString.
From Stdlib Require DecimalZ DecimalPos.
Import ListNotations.
Local Open Scope list_scope.
Local Open Scope string_scope.
Set Warnings "-register-all".

(** ** JavaScript values used by the module *)

(** [String.prototype.includes]: [pat] occurs in [s] at some position. *)
Fixpoint includes (s pat : string) : bool :=
  String.prefix pat s ||
  match s with
  | EmptyString => false
  | String _ s' => includes s' pat
  end.

(** Truthiness of a string: the empty string is falsy. *)
Definition truthy (s : string) : bool :=
  match s with
  | EmptyString => false
  | String _ _ => true
  end.

(** Truthiness of an optional string property ([string | undefined]). *)
Definition present (v : option string) : bool :=
  match v with
  | Some s => truthy s
  | None => false
  end.

(** [v || dflt] on an optional string. *)
Definition or_else (v : option string) (dflt : string) : string :=
  match v with
  | Some s => if truthy s then s else dflt
  | None => dflt
  end.

(** [String.prototype.replace(/c/g, by)]: every occurrence of the character
    [c] is replaced by the string [by]. *)
Fixpoint replace_all (c : ascii) (by_ : string) (s : string) : string :=
  match s with
  | EmptyString => EmptyString
  | String a s' =>
      if Ascii.eqb a c then by_ ++ replace_all c by_ s'
      else String a (replace_all c by_ s')
  end.

(** An [Error] object: [new Error(message)] and
    [new Error(message, { cause })]. *)
Inductive JsError : Type :=
| Error (msg : string)
| ErrorWithCause (msg : string) (cause : JsError).

Definition message (e : JsError) : string :=
  match e with
  | Error m => m
  | ErrorWithCause m _ => m
  end.

(** ** Data model *)

(** A process handle of the sandbox: the fields the module reads. *)
Record Process : Type := mkProcess {
  id : string;
  command : string;
  status : string
}.

(** What [getLogs] resolves to. *)
Record Logs : Type := mkLogs {
  stdout : string;
  stderr : string
}.

(** The worker environment bindings the module reads ([MoltbotEnv]). *)
Record MoltbotEnv : Type := mkEnv {
  GEMINI_API_KEY : option string;
  ANTHROPIC_API_KEY : option string;
  ANTHROPIC_BASE_URL : option string;
  OPENAI_API_KEY : option string;
  MOLTBOT_GATEWAY_TOKEN : option string;
  DEV_MODE : option string
}.

(** ** Process classifier (lines 98-127) *)

Definition isGatewayProcess (proc : Process) : bool :=
  includes (command proc) "start-openclaw.sh" ||
  includes (command proc) "openclaw gateway" ||
  includes (command proc) "start-moltbot.sh" ||
  includes (command proc) "clawdbot gateway".

Definition isCliCommand (proc : Process) : bool :=
  includes (command proc) "openclaw devices" ||
  includes (command proc) "openclaw --version" ||
  includes (command proc) "openclaw onboard" ||
  includes (command proc) "clawdbot devices" ||
  includes (command proc) "clawdbot --version".

(** The [for] loop of [findExistingMoltbotProcess]: the first process that
    passes both tests is returned, the loop falling through gives [null]. *)
Fixpoint findGateway (processes : list Process) : option Process :=
  match processes with
  | [] => None
  | proc :: rest =>
      if isGatewayProcess proc && negb (isCliCommand proc) then
        if String.eqb (status proc) "starting" || String.eqb (status proc) "running"
        then Some proc
        else findGateway rest
      else findGateway rest
  end.

(** The test one iteration of the loop applies to [proc]. *)
Definition accepted (proc : Process) : bool :=
  isGatewayProcess proc && negb (isCliCommand proc) &&
  (String.eqb (status proc) "starting" || String.eqb (status proc) "running").

(** ** JSON documents and [JSON.stringify] *)

Inductive Json : Type :=
| JBool (b : bool)
| JNum (n : Z)
| JStr (s : string)
| JArr (items : list Json)
| JObj (fields : list (string * Json)).

Definition dquote : ascii := ascii_of_nat 34.
Definition squote : ascii := ascii_of_nat 39.
Definition backslash : ascii := ascii_of_nat 92.

Definition str1 (a : ascii) : string := String a EmptyString.

Definition hexDigit (n : nat) : ascii :=
  match String.get n "0123456789abcdef" with
  | Some a => a
  | None => "0"%char
  end.

(** One code unit of a string inside a JSON string literal
    (QuoteJSONString). *)
Definition quoteJsonChar (a : ascii) : string :=
  let n := nat_of_ascii a in
  if Nat.eqb n 8 then "\b"
  else if Nat.eqb n 9 then "\t"
  else if Nat.eqb n 10 then "\n"
  else if Nat.eqb n 12 then "\f"
  else if Nat.eqb n 13 then "\r"
  else if Nat.eqb n 34 then String backslash (str1 dquote)
  else if Nat.eqb n 92 then "\\"
  else if Nat.ltb n 32 then
    "\u00" ++ str1 (hexDigit (n / 16)) ++ str1 (hexDigit (n mod 16))
  else str1 a.

Fixpoint quoteJsonChars (s : string) : string :=
  match s with
  | EmptyString => EmptyString
  | String a s' => quoteJsonChar a ++ quoteJsonChars s'
  end.

Definition quoteJsonString (s : string) : string :=
  str1 dquote ++ quoteJsonChars s ++ str1 dquote.

(** [JSON.stringify] without indentation: members in insertion order,
    separated by commas, no white space. *)
Fixpoint stringify (j : Json) : string :=
  match j with
  | JBool true => "true"
  | JBool false => "false"
  | JNum n => NilZero.string_of_int (Z.to_int n)
  | JStr s => quoteJsonString s
  | JArr items =>
      "[" ++ String.concat "," (List.map stringify items) ++ "]"
  | JObj fields =>
      let member :=
        fix member (l : list (string * Json)) : list string :=
          match l with
          | [] => []
          | (k, v) :: l' =>
              (quoteJsonString k ++ ":" ++ stringify v) :: member l'
          end in
      "{" ++ String.concat "," (member fields) ++ "}"
  end.

(** [Object.keys] of an object. *)
Definition keys (fields : list (string * Json)) : list string :=
  List.map fst fields.

(** ** What the module imports *)

(** The result of awaiting a call of the sandbox: the promise rejects with
    an error or resolves to a value. *)
Definition Reply (A : Type) : Type := (JsError + A)%type.

(** The sandbox runtime, over its own state [S]. *)
Class Sandbox (S : Type) : Type := {
  sb_listProcesses : S -> Reply (list Process) * S;
  sb_startProcess :
    string -> option (list (string * string)) -> S -> Reply Process * S;
  sb_waitForPort : Process -> Z -> string -> Z -> S -> Reply unit * S;
  sb_kill : Process -> S -> Reply unit * S;
  sb_getLogs : Process -> S -> Reply Logs * S
}.

(** The asynchronous helpers imported from [./r2] and [./utils]; they act
    on the sandbox. *)
Class Helpers (S : Type) : Type := {
  hp_ensureRcloneConfig : MoltbotEnv -> S -> Reply unit * S;
  hp_waitForProcess : Process -> Z -> S -> Reply unit * S
}.

(** The constants imported from [../config] and the pure function imported
    from [./env]. *)
Class Imports : Type := {
  MOLTBOT_PORT : Z;
  STARTUP_TIMEOUT_MS : Z;
  buildEnvVars : MoltbotEnv -> list (string * string)
}.

(** ** Asynchronous computations *)

(** What the module does to the outside, in the order it does it.  A
    console event keeps the label, the first argument of the call. *)
Inductive Event : Type :=
| EvLog (label : string)
| EvLogError (label : string)
| EvEnsureRcloneConfig
| EvListProcesses
| EvStartProcess (cmd : string) (env : option (list (string * string)))
| EvWaitForProcess (proc : Process) (timeout : Z)
| EvWaitForPort (proc : Process) (port : Z) (mode : string) (timeout : Z)
| EvKill (proc : Process)
| EvGetLogs (proc : Process).

Inductive Outcome (A : Type) : Type :=
| Returned (a : A)
| Thrown (e : JsError).
Arguments Returned {A} a.
Arguments Thrown {A} e.

(** A computation runs from a sandbox state to an outcome, the next sandbox
    state and the events it issued. *)
Definition M (S A : Type) : Type := S -> Outcome A * S * list Event.

Definition ret {S A} (a : A) : M S A :=
  fun s => (Returned a, s, []).

Definition throw {S A} (e : JsError) : M S A :=
  fun s => (Thrown e, s, []).

Definition bind {S A B} (m : M S A) (k : A -> M S B) : M S B :=
  fun s =>
    match m s with
    | (Returned a, s1, t1) =>
        match k a s1 with
        | (r, s2, t2) => (r, s2, (t1 ++ t2)%list)
        end
    | (Thrown e, s1, t1) => (Thrown e, s1, t1)
    end.

(** [try { m } catch (e) { handler e }] *)
Definition try_catch {S A} (m : M S A) (handler : JsError -> M S A) : M S A :=
  fun s =>
    match m s with
    | (Returned a, s1, t1) => (Returned a, s1, t1)
    | (Thrown e, s1, t1) =>
        match handler e s1 with
        | (r, s2, t2) => (r, s2, (t1 ++ t2)%list)
        end
    end.

(** Awaiting a call: the event is issued, the reply decides the outcome. *)
Definition await {S A} (ev : Event) (call : S -> Reply A * S) : M S A :=
  fun s =>
    match call s with
    | (inr a, s1) => (Returned a, s1, [ev])
    | (inl e, s1) => (Thrown e, s1, [ev])
    end.

Definition emit {S} (ev : Event) : M S unit :=
  fun s => (Returned tt, s, [ev]).

Notation "x <- m ;; k" := (bind m (fun x => k))
  (at level 61, m at next level, right associativity).
Notation "m ;; k" := (bind m (fun _ => k))
  (at level 61, right associativity).

Definition result {S A} (r : Outcome A * S * list Event) : Outcome A :=
  fst (fst r).
Definition final {S A} (r : Outcome A * S * list Event) : S :=
  snd (fst r).
Definition trace {S A} (r : Outcome A * S * list Event) : list Event :=
  snd r.

Section Calls.
Context {S : Type} `{Sandbox S} `{Helpers S}.

Definition console_log (label : string) : M S unit := emit (EvLog label).
Definition console_error (label : string) : M S unit := emit (EvLogError label).

Definition listProcesses : M S (list Process) :=
  await EvListProcesses sb_listProcesses.

Definition startProcess (cmd : string) (env : option (list (string * string)))
  : M S Process :=
  await (EvStartProcess cmd env) (sb_startProcess cmd env).

Definition waitForPort (proc : Process) (port : Z) (mode : string) (timeout : Z)
  : M S unit :=
  await (EvWaitForPort proc port mode timeout)
        (sb_waitForPort proc port mode timeout).

Definition kill (proc : Process) : M S unit :=
  await (EvKill proc) (sb_kill proc).

Definition getLogs (proc : Process) : M S Logs :=
  await (EvGetLogs proc) (sb_getLogs proc).

Definition ensureRcloneConfig (env : MoltbotEnv) : M S unit :=
  await EvEnsureRcloneConfig (hp_ensureRcloneConfig env).

Definition waitForProcess (proc : Process) (timeout : Z) : M S unit :=
  await (EvWaitForProcess proc timeout) (hp_waitForProcess proc timeout).
End Calls.

(** ** Config pre-seeding (lines 13-90) *)

(** The value of a key that is set and not empty. *)
Definition key (v : option string) : option string :=
  match v with
  | Some s => if truthy s then Some s else None
  | None => None
  end.

Definition model (mid name : string) (contextWindow maxTokens : Z) : Json :=
  JObj [("id", JStr mid); ("name", JStr name);
        ("contextWindow", JNum contextWindow); ("maxTokens", JNum maxTokens)].

(** Lines 17-56: [providerConfig] and [defaultModel], or [None] where the
    function returns early. *)
Definition selectProvider (env : MoltbotEnv)
  : option (list (string * Json) * string) :=
  match key (GEMINI_API_KEY env) with
  | Some k =>
      Some ([("google-gemini",
              JObj [("baseUrl", JStr "https://generativelanguage.googleapis.com/v1beta/openai/");
                    ("api", JStr "openai-completions");
                    ("apiKey", JStr k);
                    ("models",
                     JArr [model "gemini-2.0-flash" "Gemini 2.0 Flash" 1048576 8192;
                           model "gemini-2.5-flash-preview-05-20" "Gemini 2.5 Flash"
                                 1048576 65536])])],
            "google-gemini/gemini-2.0-flash")
  | None =>
      match key (ANTHROPIC_API_KEY env) with
      | Some k =>
          Some ([("anthropic",
                  JObj [("api", JStr "anthropic-messages");
                        ("apiKey", JStr k);
                        ("baseUrl",
                         JStr (or_else (ANTHROPIC_BASE_URL env) "https://api.anthropic.com"));
                        ("models",
                         JArr [model "claude-sonnet-4-20250514" "Claude Sonnet" 200000 8192])])],
                "anthropic/claude-sonnet-4-20250514")
      | None =>
          match key (OPENAI_API_KEY env) with
          | Some k =>
              Some ([("openai",
                      JObj [("api", JStr "openai-completions");
                            ("apiKey", JStr k);
                            ("baseUrl", JStr "https://api.openai.com/v1");
                            ("models", JArr [model "gpt-4o" "GPT-4o" 128000 4096])])],
                    "openai/gpt-4o")
          | None => None
          end
      end
  end.

(** Lines 58-71: the [config] object. *)
Definition buildConfig `{Imports} (env : MoltbotEnv)
    (providerConfig : list (string * Json)) (defaultModel : string) : Json :=
  let gatewayToken := or_else (MOLTBOT_GATEWAY_TOKEN env) EmptyString in
  JObj [("gateway",
         JObj [("port", JNum MOLTBOT_PORT);
               ("mode", JStr "local");
               ("bind", JStr "lan");
               ("trustedProxies", JArr [JStr "10.1.0.0"]);
               ("auth", if truthy gatewayToken
                        then JObj [("token", JStr gatewayToken)] else JObj []);
               ("controlUi",
                JObj [("allowInsecureAuth",
                       JBool (match DEV_MODE env with
                              | Some v => String.eqb v "true"
                              | None => false
                              end))])]);
        ("models", JObj [("providers", JObj providerConfig)]);
        ("agents",
         JObj [("defaults",
                JObj [("model", if truthy defaultModel
                                then JObj [("primary", JStr defaultModel)]
                                else JObj [])])]);
        ("channels", JObj [])].

(** Line 76: every ['] becomes ['\'']. *)
Definition escape (configJson : string) : string :=
  replace_all squote "'\''" configJson.

(** The script handed to [node -e]. *)
Definition writeScript : string :=
  "require(" ++ str1 dquote ++ "fs" ++ str1 dquote ++ ").writeFileSync("
  ++ str1 dquote ++ "/root/.openclaw/openclaw.json" ++ str1 dquote
  ++ ", JSON.stringify(JSON.parse(process.argv[1]), null, 2))".

(** Line 77: the command of the write process. *)
Definition writeCmd (configJson : string) : string :=
  "mkdir -p /root/.openclaw && node -e '" ++ writeScript ++ "' '"
  ++ escape configJson ++ "'".

Section Supervisor.
Context {S : Type} `{Sandbox S} `{Helpers S} `{Imports}.

Definition preseedOpenClawConfig (env : MoltbotEnv) : M S unit :=
  console_log "[Config] Pre-seeding openclaw.json..." ;;
  match selectProvider env with
  | None => console_log "[Config] No provider key found, skipping pre-seed"
  | Some (providerConfig, defaultModel) =>
      let configJson := stringify (buildConfig env providerConfig defaultModel) in
      try_catch
        (proc <- startProcess (writeCmd configJson) None ;;
         waitForProcess proc 5000 ;;
         logs <- getLogs proc ;;
         (if truthy (stderr logs)
          then console_error "[Config] Write stderr:" else ret tt) ;;
         console_log "[Config] Pre-seeded config with provider:")
        (fun e => console_error "[Config] Failed to pre-seed config:")
  end.

(** ** Process discovery (lines 98-127) *)

Definition findExistingMoltbotProcess : M S (option Process) :=
  try_catch
    (processes <- listProcesses ;;
     ret (findGateway processes))
    (fun e => console_log "Could not list processes:" ;; ret None).

(** ** The supervisor (lines 141-230) *)

Definition gatewayCommand : string := "/usr/local/bin/start-openclaw.sh".

(** Lines 148-174: [Some] is the early [return existingProcess], [None]
    falls through to the fresh start. *)
Definition reuseExisting (existingProcess : option Process)
  : M S (option Process) :=
  match existingProcess with
  | Some existing =>
      console_log "Found existing gateway process:" ;;
      try_catch
        (console_log "Waiting for gateway on port" ;;
         waitForPort existing MOLTBOT_PORT "tcp" STARTUP_TIMEOUT_MS ;;
         console_log "Gateway is reachable" ;;
         ret (Some existing))
        (fun _e =>
           console_log "Existing process not reachable after full timeout, killing and restarting..." ;;
           try_catch (kill existing)
                     (fun killError => console_log "Failed to kill process:") ;;
           ret None)
  | None => ret None
  end.

(** Lines 191-200: the launch of the start script. *)
Definition launch (envVars : list (string * string)) : M S Process :=
  try_catch
    (process <- startProcess gatewayCommand
                  (if Nat.ltb 0 (List.length envVars) then Some envVars else None) ;;
     console_log "Process started with id:" ;;
     ret process)
    (fun startErr =>
       console_error "Failed to start process:" ;;
       throw startErr).

(** Lines 203-224: the wait for the launched process. *)
Definition awaitReady (process : Process) : M S unit :=
  try_catch
    (console_log "[Gateway] Waiting for OpenClaw gateway to be ready on port" ;;
     waitForPort process MOLTBOT_PORT "tcp" STARTUP_TIMEOUT_MS ;;
     console_log "[Gateway] OpenClaw gateway is ready!" ;;
     logs <- getLogs process ;;
     (if truthy (stdout logs) then console_log "[Gateway] stdout:" else ret tt) ;;
     (if truthy (stderr logs) then console_log "[Gateway] stderr:" else ret tt))
    (fun e =>
       console_error "[Gateway] waitForPort failed:" ;;
       try_catch
         (logs <- getLogs process ;;
          console_error "[Gateway] startup failed. Stderr:" ;;
          console_error "[Gateway] startup failed. Stdout:" ;;
          throw (ErrorWithCause
                   ("OpenClaw gateway failed to start. Stderr: "
                    ++ (if truthy (stderr logs) then stderr logs else "(empty)"))
                   e))
         (fun logErr =>
            console_error "[Gateway] Failed to get logs:" ;;
            throw e)).

(** Lines 176-229: the fresh start. *)
Definition startNewGateway (env : MoltbotEnv) : M S Process :=
  console_log "Starting new OpenClaw gateway..." ;;
  let envVars := buildEnvVars env in
  preseedOpenClawConfig env ;;
  console_log "Starting process with command:" ;;
  console_log "Environment vars being passed:" ;;
  process <- launch envVars ;;
  awaitReady process ;;
  console_log "[Gateway] Verifying gateway health..." ;;
  ret process.

Definition ensureMoltbotGateway (env : MoltbotEnv) : M S Process :=
  ensureRcloneConfig env ;;
  existingProcess <- findExistingMoltbotProcess ;;
  reused <- reuseExisting existingProcess ;;
  match reused with
  | Some existing => ret existing
  | None => startNewGateway env
  end.
End Supervisor.

(** ** How the shell reads the write command *)

(** The quoting rules of the POSIX shell, for a list of simple commands
    joined by [&&]: outside quotes a backslash keeps the next character
    literally, a single quote opens a single-quoted string, blanks separate
    words; inside single quotes every character stands for itself up to the
    next single quote.  Double quotes, expansions and the other operators
    do not occur unquoted in the write command and are refused.  [cur] is
    the word being read, if any. *)
Definition sh_blank (a : ascii) : bool :=
  let n := nat_of_ascii a in
  Nat.eqb n 32 || Nat.eqb n 9 || Nat.eqb n 10.

Definition sh_refused (a : ascii) : bool :=
  let n := nat_of_ascii a in
  existsb (Nat.eqb n) [34; 36; 96; 124; 59; 60; 62; 40; 41; 42; 63; 91; 126; 35]%nat.

Definition add_word (w : option string) (r : option (list (list string)))
  : option (list (list string)) :=
  match w with
  | None => r
  | Some w =>
      match r with
      | None => None
      | Some [] => Some [[w]]
      | Some (c :: cs) => Some ((w :: c) :: cs)
      end
  end.

Definition new_command (r : option (list (list string)))
  : option (list (list string)) :=
  match r with
  | None => None
  | Some cs => Some ([] :: cs)
  end.

Fixpoint sh_parse (quoted : bool) (cur : option string) (cmd : string)
  : option (list (list string)) :=
  let w := match cur with Some w => w | None => EmptyString end in
  match cmd with
  | EmptyString => if quoted then None else add_word cur (Some [[]])
  | String a rest =>
      if quoted then
        if Ascii.eqb a squote then sh_parse false (Some w) rest
        else sh_parse true (Some (w ++ str1 a)) rest
      else if Ascii.eqb a squote then sh_parse true (Some w) rest
      else if Ascii.eqb a backslash then
        match rest with
        | EmptyString => None
        | String b rest' => sh_parse false (Some (w ++ str1 b)) rest'
        end
      else if sh_blank a then add_word cur (sh_parse false None rest)
      else if Ascii.eqb a "&"%char then
        match rest with
        | String "&"%char rest' =>
            add_word cur (new_command (sh_parse false None rest'))
        | _ => None
        end
      else if sh_refused a then None
      else sh_parse false (Some (w ++ str1 a)) rest
  end.

Definition sh_commands (cmd : string) : option (list (list string)) :=
  sh_parse false None cmd.

(** ** A scripted sandbox, to run the module on concrete inputs *)

(** Each kind of call answers with the next reply of its list; a call past
    the end of its list is rejected. *)
Record Script : Type := mkScript {
  on_rclone : list (Reply unit);
  on_list : list (Reply (list Process));
  on_port : list (Reply unit);
  on_kill : list (Reply unit);
  on_start : list (Reply Process);
  on_waitProcess : list (Reply unit);
  on_logs : list (Reply Logs)
}.

Definition next {A} (l : list (Reply A)) : Reply A * list (Reply A) :=
  match l with
  | [] => (inl (Error "no reply scripted"), [])
  | r :: l' => (r, l')
  end.

Definition scripted_sandbox : Sandbox Script := {|
  sb_listProcesses := fun s =>
    let (r, l) := next (on_list s) in
    (r, mkScript (on_rclone s) l (on_port s) (on_kill s) (on_start s)
                 (on_waitProcess s) (on_logs s));
  sb_startProcess := fun _ _ s =>
    let (r, l) := next (on_start s) in
    (r, mkScript (on_rclone s) (on_list s) (on_port s) (on_kill s) l
                 (on_waitProcess s) (on_logs s));
  sb_waitForPort := fun _ _ _ _ s =>
    let (r, l) := next (on_port s) in
    (r, mkScript (on_rclone s) (on_list s) l (on_kill s) (on_start s)
                 (on_waitProcess s) (on_logs s));
  sb_kill := fun _ s =>
    let (r, l) := next (on_kill s) in
    (r, mkScript (on_rclone s) (on_list s) (on_port s) l (on_start s)
                 (on_waitProcess s) (on_logs s));
  sb_getLogs := fun _ s =>
    let (r, l) := next (on_logs s) in
    (r, mkScript (on_rclone s) (on_list s) (on_port s) (on_kill s) (on_start s)
                 (on_waitProcess s) l)
|}.

Definition scripted_helpers : Helpers Script := {|
  hp_ensureRcloneConfig := fun _ s =>
    let (r, l) := next (on_rclone s) in
    (r, mkScript l (on_list s) (on_port s) (on_kill s) (on_start s)
                 (on_waitProcess s) (on_logs s));
  hp_waitForProcess := fun _ _ s =>
    let (r, l) := next (on_waitProcess s) in
    (r, mkScript (on_rclone s) (on_list s) (on_port s) (on_kill s) (on_start s)
                 l (on_logs s))
|}.

(** Values of the imports for the concrete runs. *)
Definition sample_imports : Imports := {|
  MOLTBOT_PORT := 18789;
  STARTUP_TIMEOUT_MS := 180000;
  buildEnvVars := fun env =>
    match ANTHROPIC_API_KEY env with
    | Some k => [("ANTHROPIC_API_KEY", k)]
    | None => []
    end
|}.

Definition no_keys : MoltbotEnv := mkEnv None None None None None None.

Definition anthropic_only : MoltbotEnv :=
  mkEnv None (Some "sk-ant") None None None None.

Definition old_gateway : Process :=
  mkProcess "proc-1" "openclaw gateway" "running".

Definition devices_cli : Process :=
  mkProcess "proc-2" "openclaw devices list" "running".

Definition new_gateway : Process :=
  mkProcess "proc-3" "/usr/local/bin/start-openclaw.sh" "starting".

Definition ok : Reply unit := inr tt.

Definition run_scripted {A} (m : M Script A) (s : Script) : Outcome A * list Event :=
  (result (m s), trace (m s)).

Definition scripted_ensure (env : MoltbotEnv) : M Script Process :=
  @ensureMoltbotGateway Script scripted_sandbox scripted_helpers sample_imports env.

Definition scripted_preseed (env : MoltbotEnv) : M Script unit :=
  @preseedOpenClawConfig Script scripted_sandbox scripted_helpers sample_imports env.

(** *** Scripts of the concrete runs *)

Definition write_process : Process :=
  mkProcess "proc-w" "mkdir -p /root/.openclaw && node -e ..." "running".

(** An existing gateway that answers its probe. *)
Definition reuse_script : Script :=
  mkScript [ok] [inr [devices_cli; old_gateway]] [ok] [] [] [] [].

(** No candidate; the launched process never becomes reachable, and its
    logs are retrieved with [boom] on the standard error. *)
Definition fresh_timeout_script : Script :=
  mkScript [ok] [inr []] [inl (Error "timed out waiting for port")] []
           [inr new_gateway] [] [inr (mkLogs EmptyString "boom")].

(** No candidate; the launched process becomes reachable, the first
    [getLogs] on it is rejected, a second one would succeed. *)
Definition fresh_logs_fail_script : Script :=
  mkScript [ok] [inr []] [ok] [] [inr new_gateway] []
           [inl (Error "logs unavailable"); inr (mkLogs EmptyString EmptyString)].

(** An existing gateway whose probe times out and whose kill fails; the
    config is written, the launched process becomes reachable, and
    [getLogs] on it is rejected. *)
Definition restart_logs_fail_script : Script :=
  mkScript [ok] [inr [old_gateway]]
           [inl (Error "timed out waiting for port"); ok]
           [inl (Error "no such process")]
           [inr write_process; inr new_gateway] [ok]
           [inr (mkLogs EmptyString EmptyString); inl (Error "logs unavailable")].

(** No candidate; the write process of the seeding cannot be started. *)
Definition write_fails_script : Script :=
  mkScript [ok] [inr []] [ok] []
           [inl (Error "cannot start the write"); inr new_gateway] []
           [inr (mkLogs EmptyString EmptyString)].

(** ** The specification's words for the classifier *)

Definition launcher_patterns : list string :=
  ["start-openclaw.sh"; "openclaw gateway"; "start-moltbot.sh"; "clawdbot gateway"].

Definition management_patterns : list string :=
  ["openclaw devices"; "openclaw --version"; "openclaw onboard";
   "clawdbot devices"; "clawdbot --version"].

(** [pat] is a substring of [s]. *)
Definition occurs_in (pat s : string) : Prop :=
  exists pre post, s = pre ++ pat ++ post.

Definition matches_any (patterns : list string) (proc : Process) : Prop :=
  exists pat, In pat patterns /\ occurs_in pat (command proc).

Definition live_status (proc : Process) : Prop :=
  status proc = "starting" \/ status proc = "running".

(** The process the specification asks for: a launcher, not a management
    subcommand, not in a terminal status. *)
Definition spec_gateway (proc : Process) : Prop :=
  matches_any launcher_patterns proc /\
  ~ matches_any management_patterns proc /\
  live_status proc.

(** [proc] is the first process of the listing that satisfies [P]. *)
Definition first_such (P : Process -> Prop) (processes : list Process)
    (proc : Process) : Prop :=
  exists before after,
    processes = (before ++ proc :: after)%list /\
    P proc /\ Forall (fun q => ~ P q) before.

(** ** Properties of traces *)

(** Every event a computation issues satisfies [P], from every state. *)
Definition emits {S A : Type} (P : Event -> Prop) (m : M S A) : Prop :=
  forall s, Forall P (trace (m s)).

(** A readiness probe carries the port, the mode and the full timeout of
    the configuration. *)
Definition full_timeout_probe `{Imports} (ev : Event) : Prop :=
  match ev with
  | EvWaitForPort _ port mode timeout =>
      port = MOLTBOT_PORT /\ mode = "tcp" /\ timeout = STARTUP_TIMEOUT_MS
  | _ => True
  end.

Definition is_kill (ev : Event) : bool :=
  match ev with
  | EvKill _ => true
  | _ => false
  end.

Definition is_startProcess (ev : Event) : bool :=
  match ev with
  | EvStartProcess _ _ => true
  | _ => false
  end.

(** The launch of the gateway: [startProcess] with the start script. *)
Definition is_launch (ev : Event) : bool :=
  match ev with
  | EvStartProcess cmd _ => String.eqb cmd "/usr/local/bin/start-openclaw.sh"
  | _ => false
  end.

(** The first action of [preseedOpenClawConfig]. *)
Definition seeding_started : Event :=
  EvLog "[Config] Pre-seeding openclaw.json...".

Definition is_seeding (ev : Event) : bool :=
  match ev with
  | EvLog label => String.eqb label "[Config] Pre-seeding openclaw.json..."
  | _ => false
  end.

Definition count (f : Event -> bool) (t : list Event) : nat :=
  List.length (List.filter f t).

(** An event that is no kill, no [startProcess] and not the start of the
    seeding. *)
Definition quiet (ev : Event) : Prop :=
  is_kill ev = false /\ is_startProcess ev = false /\ is_seeding ev = false.

(** ** Further vocabulary for the properties *)

Definition is_probe (ev : Event) : bool :=
  match ev with
  | EvWaitForPort _ _ _ _ => true
  | _ => false
  end.

Definition is_listing (ev : Event) : bool :=
  match ev with
  | EvListProcesses => true
  | _ => false
  end.

Definition is_getLogs (ev : Event) : bool :=
  match ev with
  | EvGetLogs _ => true
  | _ => false
  end.

(** A computation issues at most [n] events of the kind [f], from every
    state. *)
Definition at_most {S A : Type} (f : Event -> bool) (n : nat) (m : M S A) : Prop :=
  forall s, (count f (trace (m s)) <= n)%nat.

(** The [env] option of the launch (line 194). *)
Definition passedEnv `{Imports} (env : MoltbotEnv)
  : option (list (string * string)) :=
  if Nat.ltb 0 (List.length (buildEnvVars env)) then Some (buildEnvVars env)
  else None.

(** The outcome of the launch and of the wait on the launched process, read
    from the replies of the sandbox from the state [s] on. *)
Definition launchOutcome {S : Type} `{Sandbox S} `{Imports}
    (env : MoltbotEnv) (s : S) : Outcome Process :=
  match sb_startProcess gatewayCommand (passedEnv env) s with
  | (inl startErr, _) => Thrown startErr
  | (inr process, s1) =>
      match sb_waitForPort process MOLTBOT_PORT "tcp" STARTUP_TIMEOUT_MS s1 with
      | (inl e, _) => Thrown e
      | (inr _, s2) =>
          match sb_getLogs process s2 with
          | (inl e, _) => Thrown e
          | (inr _, _) => Returned process
          end
      end
  end.

(** A property of an object: the value of the first member named [name]. *)
Fixpoint field (name : string) (fields : list (string * Json)) : option Json :=
  match fields with
  | [] => None
  | (k, v) :: rest => if String.eqb k name then Some v else field name rest
  end.

(** The environment with another base URL override. *)
Definition with_base_url (env : MoltbotEnv) (url : option string) : MoltbotEnv :=
  mkEnv (GEMINI_API_KEY env) (ANTHROPIC_API_KEY env) url (OPENAI_API_KEY env)
        (MOLTBOT_GATEWAY_TOKEN env) (DEV_MODE env).

(** The two kinds of process the module starts: the gateway, with the
    assembled environment, and the write of a config, without environment. *)
Definition started_by_module `{Imports} (env : MoltbotEnv) (ev : Event) : Prop :=
  match ev with
  | EvStartProcess cmd passed =>
      (cmd = gatewayCommand /\ passed = passedEnv env) \/
      (exists providerConfig defaultModel,
          selectProvider env = Some (providerConfig, defaultModel) /\
          cmd = writeCmd (stringify (buildConfig env providerConfig defaultModel)) /\
          passed = None)
  | EvWaitForProcess _ timeout => timeout = 5000%Z
  | _ => True
  end.

(** An event that neither kills, nor starts a process, nor probes. *)
Definition passive (ev : Event) : Prop :=
  is_kill ev = false /\ is_startProcess ev = false /\ is_probe ev = false.

(** *** More scripts *)

(** The mount helper is rejected. *)
Definition mount_fails_script : Script :=
  mkScript [inl (Error "rclone not configured")] [inr [old_gateway]] [ok] [] [] [] [].

(** The listing is rejected; the launched process becomes ready. *)
Definition listing_fails_script : Script :=
  mkScript [ok] [inl (Error "listing unavailable")] [ok] [] [inr new_gateway] []
           [inr (mkLogs "started" EmptyString)].

(** No candidate; the launch is rejected. *)
Definition launch_fails_script : Script :=
  mkScript [ok] [inr [devices_cli]] [ok] [] [inl (Error "cannot start")] [] [].

(** No candidate; the launched process becomes ready and its logs are
    read. *)
Definition fresh_ready_script : Script :=
  mkScript [ok] [inr [devices_cli]] [ok] [] [inr new_gateway] []
           [inr (mkLogs "started" EmptyString)].

(** An existing gateway whose probe times out; the kill fails, the launched
    process becomes ready and its logs are read. *)
Definition restart_ready_script : Script :=
  mkScript [ok] [inr [old_gateway]]
           [inl (Error "timed out waiting for port"); ok]
           [inl (Error "no such process")]
           [inr new_gateway] [] [inr (mkLogs "started" EmptyString)].

(** ** Reading a JSON document: [JSON.parse] *)

(** The documents of this model are those of the configuration: numbers
    are integers in the form [JSON.stringify] prints them, and there is no
    [null]; a document with a fraction, an exponent or [null] is refused,
    and so is one with a code unit beyond the byte range. *)
Inductive Token : Type :=
| TLBrace | TRBrace | TLBracket | TRBracket | TColon | TComma
| TString (s : string)
| TNumber (n : Z)
| TBool (b : bool).

Inductive LexState : Type :=
| LexStart
| LexString (acc : string)
| LexEscape (acc : string)
| LexUnicode (acc : string) (digits : list nat)
| LexNumber (acc : string)
| LexWord (acc : string).

Definition json_space (a : ascii) : bool :=
  let n := nat_of_ascii a in
  Nat.eqb n 32 || Nat.eqb n 9 || Nat.eqb n 10 || Nat.eqb n 13.

Definition number_char (a : ascii) : bool :=
  let n := nat_of_ascii a in
  Nat.eqb n 45 || (Nat.leb 48 n && Nat.leb n 57).

Definition word_char (a : ascii) : bool :=
  let n := nat_of_ascii a in
  Nat.leb 97 n && Nat.leb n 122.

Definition hex_value (a : ascii) : option nat :=
  let n := nat_of_ascii a in
  if Nat.leb 48 n && Nat.leb n 57 then Some (n - 48)
  else if Nat.leb 97 n && Nat.leb n 102 then Some (n - 87)
  else if Nat.leb 65 n && Nat.leb n 70 then Some (n - 55)
  else None.

(** The character an escape letter stands for. *)
Definition escape_char (a : ascii) : option ascii :=
  let n := nat_of_ascii a in
  if Nat.eqb n 34 then Some dquote
  else if Nat.eqb n 92 then Some backslash
  else if Nat.eqb n 47 then Some "/"%char
  else if Nat.eqb n 98 then Some (ascii_of_nat 8)
  else if Nat.eqb n 102 then Some (ascii_of_nat 12)
  else if Nat.eqb n 110 then Some (ascii_of_nat 10)
  else if Nat.eqb n 114 then Some (ascii_of_nat 13)
  else if Nat.eqb n 116 then Some (ascii_of_nat 9)
  else None.

(** An integer literal, in the one form without sign [+], leading zero or
    negative zero. *)
Definition number_token (acc : string) : option Token :=
  match NilZero.int_of_string acc with
  | Some d =>
      let n := Z.of_int d in
      if String.eqb (NilZero.string_of_int (Z.to_int n)) acc
      then Some (TNumber n) else None
  | None => None
  end.

Definition word_token (acc : string) : option Token :=
  if String.eqb acc "true" then Some (TBool true)
  else if String.eqb acc "false" then Some (TBool false)
  else None.

(** What a character does between two tokens. *)
Definition lex_start (a : ascii) : option (list Token * LexState) :=
  if json_space a then Some ([], LexStart)
  else if Ascii.eqb a "{" then Some ([TLBrace], LexStart)
  else if Ascii.eqb a "}" then Some ([TRBrace], LexStart)
  else if Ascii.eqb a "[" then Some ([TLBracket], LexStart)
  else if Ascii.eqb a "]" then Some ([TRBracket], LexStart)
  else if Ascii.eqb a ":" then Some ([TColon], LexStart)
  else if Ascii.eqb a "," then Some ([TComma], LexStart)
  else if Ascii.eqb a dquote then Some ([], LexString EmptyString)
  else if number_char a then Some ([], LexNumber (str1 a))
  else if word_char a then Some ([], LexWord (str1 a))
  else None.

Fixpoint lex (st : LexState) (s : string) : option (list Token) :=
  match s with
  | EmptyString =>
      match st with
      | LexStart => Some []
      | LexNumber acc => option_map (fun t => [t]) (number_token acc)
      | LexWord acc => option_map (fun t => [t]) (word_token acc)
      | _ => None
      end
  | String a rest =>
      match st with
      | LexStart =>
          match lex_start a with
          | Some (ts, st') => option_map (app ts) (lex st' rest)
          | None => None
          end
      | LexString acc =>
          if Ascii.eqb a dquote
          then option_map (cons (TString acc)) (lex LexStart rest)
          else if Ascii.eqb a backslash then lex (LexEscape acc) rest
          else if Nat.ltb (nat_of_ascii a) 32 then None
          else lex (LexString (acc ++ str1 a)) rest
      | LexEscape acc =>
          match escape_char a with
          | Some c => lex (LexString (acc ++ str1 c)) rest
          | None =>
              if Ascii.eqb a "u" then lex (LexUnicode acc []) rest else None
          end
      | LexUnicode acc digits =>
          match hex_value a with
          | None => None
          | Some d =>
              match digits with
              | [d1; d2; d3] =>
                  let code := (((d1 * 16 + d2) * 16 + d3) * 16 + d)%nat in
                  if Nat.ltb code 256
                  then lex (LexString (acc ++ str1 (ascii_of_nat code))) rest
                  else None
              | _ => lex (LexUnicode acc (digits ++ [d])) rest
              end
          end
      | LexNumber acc =>
          if number_char a then lex (LexNumber (acc ++ str1 a)) rest
          else
            match number_token acc, lex_start a with
            | Some t, Some (ts, st') =>
                option_map (fun l => t :: ts ++ l) (lex st' rest)
            | _, _ => None
            end
      | LexWord acc =>
          if word_char a then lex (LexWord (acc ++ str1 a)) rest
          else
            match word_token acc, lex_start a with
            | Some t, Some (ts, st') =>
                option_map (fun l => t :: ts ++ l) (lex st' rest)
            | _, _ => None
            end
      end
  end.

(** The grammar of values, arrays and objects, on the tokens; [fuel] bounds
    the number of calls, and the number of tokens is enough. *)
Fixpoint parse_value (fuel : nat) (ts : list Token) : option (Json * list Token) :=
  match fuel with
  | O => None
  | S fuel' =>
      match ts with
      | TString s :: r => Some (JStr s, r)
      | TNumber n :: r => Some (JNum n, r)
      | TBool b :: r => Some (JBool b, r)
      | TLBracket :: TRBracket :: r => Some (JArr [], r)
      | TLBracket :: r =>
          match parse_elements fuel' r with
          | Some (items, r') => Some (JArr items, r')
          | None => None
          end
      | TLBrace :: TRBrace :: r => Some (JObj [], r)
      | TLBrace :: r =>
          match parse_members fuel' r with
          | Some (fields, r') => Some (JObj fields, r')
          | None => None
          end
      | _ => None
      end
  end
with parse_elements (fuel : nat) (ts : list Token)
  : option (list Json * list Token) :=
  match fuel with
  | O => None
  | S fuel' =>
      match parse_value fuel' ts with
      | Some (v, TComma :: r) =>
          match parse_elements fuel' r with
          | Some (vs, r') => Some (v :: vs, r')
          | None => None
          end
      | Some (v, TRBracket :: r) => Some ([v], r)
      | _ => None
      end
  end
with parse_members (fuel : nat) (ts : list Token)
  : option (list (string * Json) * list Token) :=
  match fuel with
  | O => None
  | S fuel' =>
      match ts with
      | TString k :: TColon :: r =>
          match parse_value fuel' r with
          | Some (v, TComma :: r') =>
              match parse_members fuel' r' with
              | Some (ms, r'') => Some ((k, v) :: ms, r'')
              | None => None
              end
          | Some (v, TRBrace :: r') => Some ([(k, v)], r')
          | _ => None
          end
      | _ => None
      end
  end.

Fixpoint distinct (ks : list string) : bool :=
  match ks with
  | [] => true
  | k :: rest => negb (existsb (String.eqb k) rest) && distinct rest
  end.

Definition starts_with_digit (k : string) : bool :=
  match k with
  | EmptyString => false
  | String a _ => Nat.leb 48 (nat_of_ascii a) && Nat.leb (nat_of_ascii a) 57
  end.

(** An object whose members keep their order and their number when
    JavaScript builds it: the keys differ from each other, and none is an
    array index (none starts with a digit). *)
Fixpoint plain (j : Json) : bool :=
  match j with
  | JArr items => forallb plain items
  | JObj fields =>
      distinct (keys fields) &&
      forallb (fun k => negb (starts_with_digit k)) (keys fields) &&
      (fix members (l : list (string * Json)) : bool :=
         match l with
         | [] => true
         | (_, v) :: l' => plain v && members l'
         end) fields
  | _ => true
  end.

(** [JSON.parse], on the documents of the model. *)
Definition JSON_parse (text : string) : option Json :=
  match lex LexStart text with
  | Some ts =>
      match parse_value (S (List.length ts)) ts with
      | Some (j, []) => if plain j then Some j else None
      | _ => None
      end
  | None => None
  end.

(** ** [JSON.stringify] with a gap *)

Definition newline : string := str1 (ascii_of_nat 10).

(** [JSON.stringify(value, null, gap)] for a gap that is not empty:
    [indent] is the indentation of the enclosing value. *)
Fixpoint stringify_gap (gap indent : string) (j : Json) : string :=
  match j with
  | JBool true => "true"
  | JBool false => "false"
  | JNum n => NilZero.string_of_int (Z.to_int n)
  | JStr s => quoteJsonString s
  | JArr [] => "[]"
  | JArr items =>
      let inner := indent ++ gap in
      "[" ++ newline ++ inner
      ++ String.concat ("," ++ newline ++ inner)
           (List.map (stringify_gap gap inner) items)
      ++ newline ++ indent ++ "]"
  | JObj [] => "{}"
  | JObj fields =>
      let inner := indent ++ gap in
      let member :=
        fix member (l : list (string * Json)) : list string :=
          match l with
          | [] => []
          | (k, v) :: l' =>
              (quoteJsonString k ++ ": " ++ stringify_gap gap inner v) :: member l'
          end in
      "{" ++ newline ++ inner
      ++ String.concat ("," ++ newline ++ inner) (member fields)
      ++ newline ++ indent ++ "}"
  end.

Fixpoint spaces (n : nat) : string :=
  match n with
  | O => EmptyString
  | S n' => String " " (spaces n')
  end.

(** [JSON.stringify(value, null, space)] for a number [space]: at most ten
    spaces, and no white space at all for zero. *)
Definition stringify_space (space : nat) (j : Json) : string :=
  match Nat.min space 10 with
  | O => stringify j
  | S n => stringify_gap (spaces (S n)) EmptyString j
  end.

(** ** The script run by [node -e] *)

Fixpoint strip (pre s : string) : option string :=
  match pre with
  | EmptyString => Some s
  | String a pre' =>
      match s with
      | String b s' => if Ascii.eqb a b then strip pre' s' else None
      | EmptyString => None
      end
  end.

(** A string literal in double quotes without escapes: its value and what
    follows it. *)
Fixpoint literal_body (s : string) : option (string * string) :=
  match s with
  | EmptyString => None
  | String a rest =>
      if Ascii.eqb a dquote then Some (EmptyString, rest)
      else if Ascii.eqb a backslash || Nat.ltb (nat_of_ascii a) 32 then None
      else
        match literal_body rest with
        | Some (v, rest') => Some (String a v, rest')
        | None => None
        end
  end.

Definition string_literal (s : string) : option (string * string) :=
  match s with
  | String a rest => if Ascii.eqb a dquote then literal_body rest else None
  | EmptyString => None
  end.

(** A decimal literal: its value and what follows it. *)
Fixpoint digits_value (acc : nat) (s : string) : nat * string :=
  match s with
  | String a rest =>
      let n := nat_of_ascii a in
      if Nat.leb 48 n && Nat.leb n 57
      then digits_value (10 * acc + (n - 48)) rest
      else (acc, s)
  | EmptyString => (acc, s)
  end.

Definition decimal_literal (s : string) : option (nat * string) :=
  match s with
  | String a _ =>
      if Nat.leb 48 (nat_of_ascii a) && Nat.leb (nat_of_ascii a) 57
      then Some (digits_value 0 s) else None
  | EmptyString => None
  end.

(** The scripts of the form
    [require("fs").writeFileSync(PATH, JSON.stringify(JSON.parse(process.argv[I]), null, SPACE))]
    with a string literal, an index and a number of spaces: the path and
    the data of the write, when the argument is there and parses.  In
    [node -e script args], [process.argv] is the executable followed by
    [args]. *)
Definition node_e (script : string) (args : list string)
  : option (string * string) :=
  match strip "require(" script with
  | None => None
  | Some s1 =>
  match string_literal s1 with
  | None => None
  | Some (name, s2) =>
  if negb (String.eqb name "fs") then None else
  match strip ").writeFileSync(" s2 with
  | None => None
  | Some s3 =>
  match string_literal s3 with
  | None => None
  | Some (path, s4) =>
  match strip ", JSON.stringify(JSON.parse(process.argv[" s4 with
  | None => None
  | Some s5 =>
  match decimal_literal s5 with
  | None => None
  | Some (index, s6) =>
  match strip "]), null, " s6 with
  | None => None
  | Some s7 =>
  match decimal_literal s7 with
  | None => None
  | Some (space, s8) =>
  if negb (String.eqb s8 "))") then None else
  match List.nth_error ("node" :: args) index with
  | None => None
  | Some text =>
  match JSON_parse text with
  | None => None
  | Some value => Some (path, stringify_space space value)
  end end end end end end end end end end.

(** ** The file system the command acts on *)

Record FileSystem : Type := mkFS {
  is_dir : string -> bool;
  content : string -> option string
}.

(** The directories above a path: its prefixes that end before a slash. *)
Fixpoint parents_from (pre path : string) : list string :=
  match path with
  | EmptyString => []
  | String a rest =>
      (if Ascii.eqb a "/" && negb (String.eqb pre EmptyString) then [pre] else [])
      ++ parents_from (pre ++ str1 a) rest
  end.

Definition parents (path : string) : list string :=
  parents_from EmptyString path.

Definition dirname (path : string) : string :=
  List.last (parents path) "/".

Definition dir_exists (fs : FileSystem) (d : string) : bool :=
  String.eqb d "/" || is_dir fs d.

(** [mkdir -p d]: [d] and the directories above it become directories;
    the command fails when one of them is a file. *)
Definition mkdir_p (d : string) (fs : FileSystem) : option FileSystem :=
  let made := (parents d ++ [d])%list in
  if existsb (fun p => match content fs p with Some _ => true | None => false end) made
  then None
  else Some (mkFS (fun p => existsb (String.eqb p) made || is_dir fs p)
                  (content fs)).

(** [writeFileSync(path, data)]: fails when [path] is a directory or the
    directory of [path] does not exist. *)
Definition writeFileSync (path data : string) (fs : FileSystem)
  : option FileSystem :=
  if is_dir fs path || negb (dir_exists fs (dirname path)) then None
  else Some (mkFS (is_dir fs)
                  (fun p => if String.eqb p path then Some data else content fs p)).

Definition run_command (words : list string) (fs : FileSystem)
  : option FileSystem :=
  match words with
  | ["mkdir"; "-p"; d] => mkdir_p d fs
  | "node" :: "-e" :: script :: args =>
      match node_e script args with
      | Some (path, data) => writeFileSync path data fs
      | None => None
      end
  | _ => None
  end.

(** A list joined by [&&]: a command runs when the ones before it
    succeeded. *)
Fixpoint run_and_list (cmds : list (list string)) (fs : FileSystem)
  : option FileSystem :=
  match cmds with
  | [] => Some fs
  | words :: rest =>
      match run_command words fs with
      | Some fs' => run_and_list rest fs'
      | None => None
      end
  end.

Definition sh_run (cmd : string) (fs : FileSystem) : option FileSystem :=
  match sh_commands cmd with
  | Some cmds => run_and_list cmds fs
  | None => None
  end.

Definition empty_fs : FileSystem := mkFS (fun _ => false) (fun _ => None).

Definition configPath : string := "/root/.openclaw/openclaw.json".

(** An environment whose key holds a single quote. *)
Definition quoted_key : MoltbotEnv :=
  mkEnv None (Some "sk-'ant'") None None (Some "it's") None.

Definition quoted_config : Json :=
  @buildConfig sample_imports quoted_key
    [("anthropic",
      JObj [("api", JStr "anthropic-messages");
            ("apiKey", JStr "sk-'ant'");
            ("baseUrl", JStr "https://api.anthropic.com");
            ("models",
             JArr [model "claude-sonnet-4-20250514" "Claude Sonnet" 200000 8192])])]
    "anthropic/claude-sonnet-4-20250514".

(** The tokens of a value; [join] is [String.concat] on lists. *)
Fixpoint join {A : Type} (sep : list A) (ls : list (list A)) : list A :=
  match ls with
  | [] => []
  | [x] => x
  | x :: (_ :: _) as xs => x ++ sep ++ join sep xs
  end.

Fixpoint toks (j : Json) : list Token :=
  match j with
  | JBool b => [TBool b]
  | JNum n => [TNumber n]
  | JStr s => [TString s]
  | JArr items => TLBracket :: join [TComma] (List.map toks items) ++ [TRBracket]
  | JObj fields =>
      let member :=
        fix member (l : list (string * Json)) : list (list Token) :=
          match l with
          | [] => []
          | (k, v) :: l' => (TString k :: TColon :: toks v) :: member l'
          end in
      TLBrace :: join [TComma] (member fields) ++ [TRBrace]
  end.

(** Where a number or a word can end: at the end of the text or before a
    character that continues neither. *)
Definition boundary (rest : string) : bool :=
  match rest with
  | EmptyString => true
  | String a _ => negb (number_char a) && negb (word_char a)
  end.

Fixpoint all_chars (f : ascii -> bool) (s : string) : bool :=
  match s with
  | EmptyString => true
  | String a rest => f a && all_chars f rest
  end.

(** A token that can begin a value. *)
Definition opens (t : Token) : bool :=
  match t with
  | TRBrace | TRBracket | TColon | TComma => false
  | _ => true
  end.

(** The parser reads the tokens of [j] back, with fuel for them. *)
Definition reads_back (j : Json) : Prop :=
  forall fuel rest,
    (List.length (toks j) <= fuel)%nat ->
    parse_value fuel (toks j ++ rest)%list = Some (j, rest).

(** The lexer reads the text of [j] as its tokens, before a text it can
    read. *)
Definition lexes (j : Json) : Prop :=
  forall rest ts,
    boundary rest = true ->
    lex LexStart rest = Some ts ->
    lex LexStart (stringify j ++ rest) = Some (toks j ++ ts)%list.

(** The same for the text printed with the gap [gap], at every
    indentation. *)
Definition lexes_gap (gap : string) (j : Json) : Prop :=
  forall indent rest ts,
    all_chars json_space indent = true ->
    boundary rest = true ->
    lex LexStart rest = Some ts ->
    lex LexStart (stringify_gap gap indent j ++ rest) = Some (toks j ++ ts)%list.

(** * Properties *)

(** ** Strings *)

Lemma prefix_spec (p s : string) :
  String.prefix p s = true <-> exists post, s = p ++ post.
Proof.
  revert s. induction p as [|a p IH]; intros s.
  - split; [intros _; exists s; reflexivity | destruct s; reflexivity].
  - destruct s as [|b s]; simpl.
    + split; [discriminate | intros [post E]; discriminate].
    + destruct (Ascii.ascii_dec a b) as [->|Hab].
      * rewrite IH. split; intros [post E]; exists post.
        -- now rewrite E.
        -- now injection E.
      * split; [discriminate | intros [post E]; injection E; congruence].
Qed.

Lemma includes_here (s pat : string) :
  String.prefix pat s = true -> includes s pat = true.
Proof.
  intros Hp. destruct s; cbn [includes]; rewrite Hp; reflexivity.
Qed.

Lemma includes_spec (s pat : string) :
  includes s pat = true <-> occurs_in pat s.
Proof.
  split.
  - induction s as [|a s IH]; cbn [includes]; intros Hi.
    + rewrite orb_false_r in Hi. apply prefix_spec in Hi as [post E].
      exists EmptyString, post. exact E.
    + apply orb_true_iff in Hi as [Hp|Hr].
      * apply prefix_spec in Hp as [post E].
        exists EmptyString, post. exact E.
      * destruct (IH Hr) as (pre & post & E).
        exists (String a pre), post. simpl. now rewrite E.
  - intros (pre & post & E). subst s.
    induction pre as [|a pre IH]; simpl.
    + apply includes_here. apply prefix_spec. now exists post.
    + change (includes (String a (pre ++ pat ++ post)) pat = true).
      cbn [includes]. rewrite IH. apply orb_true_r.
Qed.

Lemma includes_false (s pat : string) :
  includes s pat = false <-> ~ occurs_in pat s.
Proof.
  rewrite <- includes_spec. destruct (includes s pat); split; congruence.
Qed.

(** ** The classifier *)

Lemma isGatewayProcess_spec (proc : Process) :
  isGatewayProcess proc = true <-> matches_any launcher_patterns proc.
Proof.
  unfold isGatewayProcess, matches_any, launcher_patterns.
  rewrite !orb_true_iff, !includes_spec. simpl. split.
  - intros [[[Hm|Hm]|Hm]|Hm]; eauto 10.
  - intros (pat & Hin & Hm).
    repeat (destruct Hin as [<-|Hin]; [tauto|]). destruct Hin.
Qed.

Lemma isCliCommand_spec (proc : Process) :
  isCliCommand proc = true <-> matches_any management_patterns proc.
Proof.
  unfold isCliCommand, matches_any, management_patterns.
  rewrite !orb_true_iff, !includes_spec. simpl. split.
  - intros [[[[Hm|Hm]|Hm]|Hm]|Hm]; eauto 10.
  - intros (pat & Hin & Hm).
    repeat (destruct Hin as [<-|Hin]; [tauto|]). destruct Hin.
Qed.

Lemma accepted_spec (proc : Process) :
  accepted proc = true <-> spec_gateway proc.
Proof.
  unfold accepted, spec_gateway, live_status.
  rewrite !andb_true_iff, orb_true_iff, negb_true_iff, !String.eqb_eq.
  rewrite isGatewayProcess_spec.
  rewrite <- isCliCommand_spec, not_true_iff_false. tauto.
Qed.

Lemma findGateway_step (proc : Process) (rest : list Process) :
  findGateway (proc :: rest) =
  if accepted proc then Some proc else findGateway rest.
Proof.
  unfold accepted. simpl.
  destruct (isGatewayProcess proc && negb (isCliCommand proc)); simpl;
    [destruct (_ || _)|]; reflexivity.
Qed.

Lemma findGateway_some (processes : list Process) (proc : Process) :
  findGateway processes = Some proc <-> first_such spec_gateway processes proc.
Proof.
  unfold first_such. induction processes as [|q rest IH].
  - simpl. split; [discriminate|].
    intros (before & after & E & _). destruct before; discriminate.
  - rewrite findGateway_step. destruct (accepted q) eqn:Hq.
    + split.
      * intros [= <-]. exists [], rest.
        split; [reflexivity | split; [now apply accepted_spec | constructor]].
      * intros (before & after & E & Hp & Hb).
        destruct before as [|b before]; simpl in E; injection E as <- _.
        -- reflexivity.
        -- inversion Hb; subst. apply accepted_spec in Hq. contradiction.
    + rewrite IH. split.
      * intros (before & after & -> & Hp & Hb).
        exists (q :: before), after.
        split; [reflexivity | split; [exact Hp |]].
        constructor; auto. rewrite <- accepted_spec. congruence.
      * intros (before & after & E & Hp & Hb).
        destruct before as [|b before]; simpl in E; injection E as <- E.
        -- apply accepted_spec in Hp. congruence.
        -- inversion Hb; subst. now exists before, after.
Qed.

Lemma findGateway_none (processes : list Process) :
  findGateway processes = None <-> Forall (fun q => ~ spec_gateway q) processes.
Proof.
  induction processes as [|q rest IH].
  - simpl. split; auto.
  - rewrite findGateway_step. destruct (accepted q) eqn:Hq.
    + split; [discriminate|]. intros Hf. inversion Hf; subst.
      apply accepted_spec in Hq. contradiction.
    + rewrite IH. split.
      * intros Hf. constructor; auto. rewrite <- accepted_spec. congruence.
      * intros Hf. now inversion Hf.
Qed.

(** C5: for every process list, [findExistingMoltbotProcess] returns the
    first process in listing order that matches a launcher pattern, matches
    no management-subcommand pattern and has status starting or running, and
    returns none when there is no such process; a process matching both kinds
    of pattern or in a terminal status is never returned; of
    [openclaw gateway] and [openclaw devices list], both running, the first
    is returned. *)
Theorem classifier_first_live_gateway
    {S : Type} {sb : Sandbox S} (s s' : S) (processes : list Process) :
  sb_listProcesses s = (inr processes, s') ->
  (forall proc,
      result (findExistingMoltbotProcess s) = Returned (Some proc) <->
      first_such spec_gateway processes proc) /\
  (result (findExistingMoltbotProcess s) = Returned None <->
   Forall (fun q => ~ spec_gateway q) processes) /\
  (forall proc,
      result (findExistingMoltbotProcess s) = Returned (Some proc) ->
      ~ (matches_any launcher_patterns proc /\
         matches_any management_patterns proc) /\
      live_status proc) /\
  (forall id1 id2,
      processes = [mkProcess id1 "openclaw gateway" "running";
                   mkProcess id2 "openclaw devices list" "running"] ->
      result (findExistingMoltbotProcess s) =
      Returned (Some (mkProcess id1 "openclaw gateway" "running"))).
Proof.
  intros Hlist.
  assert (Hrun : result (findExistingMoltbotProcess s)
                 = Returned (findGateway processes)).
  { unfold findExistingMoltbotProcess, listProcesses, try_catch, bind, await, ret.
    rewrite Hlist. reflexivity. }
  rewrite Hrun. split; [|split; [|split]].
  - intros proc. rewrite <- findGateway_some.
    split; [now intros [= E] | now intros ->].
  - rewrite <- findGateway_none.
    split; [now intros [= E] | now intros ->].
  - intros proc [= E].
    apply findGateway_some in E as (_ & _ & _ & Hg & _).
    destruct Hg as (_ & Hno & Hlive). tauto.
  - intros id1 id2 ->. reflexivity.
Qed.

Lemma classifier_first_live_gateway_witness :
  result (@findExistingMoltbotProcess Script scripted_sandbox
            (mkScript [] [inr [old_gateway; devices_cli]] [] [] [] [] []))
  = Returned (Some old_gateway).
Proof.
  pose proof (classifier_first_live_gateway (sb := scripted_sandbox)
                (mkScript [] [inr [old_gateway; devices_cli]] [] [] [] [] [])
                (mkScript [] [] [] [] [] [] [])
                [old_gateway; devices_cli] eq_refl) as (_ & _ & _ & Hex).
  exact (Hex "proc-1" "proc-2" eq_refl).
Defined.

(** ** The credential selector *)

Lemma key_present (v : option string) :
  present v = true -> exists k, v = Some k /\ key v = Some k.
Proof.
  destruct v as [k|]; simpl; [|discriminate].
  intros Hk. exists k. now rewrite Hk.
Qed.

Lemma key_absent (v : option string) :
  present v = false -> key v = None.
Proof.
  destruct v as [k|]; simpl; [|reflexivity].
  now intros ->.
Qed.

(** C6: the provider section follows the priority Gemini, Anthropic,
    OpenAI: the first present key decides the section and the default model,
    keys of lower priority do not change the outcome, and the section holds
    at most one provider; with only [ANTHROPIC_API_KEY] the provider is
    [anthropic] and the default model [anthropic/claude-sonnet-4-20250514]. *)
Theorem credential_precedence (env : MoltbotEnv) :
  (present (GEMINI_API_KEY env) = true ->
   exists section,
     selectProvider env =
     Some ([("google-gemini", section)], "google-gemini/gemini-2.0-flash")) /\
  (present (GEMINI_API_KEY env) = false ->
   present (ANTHROPIC_API_KEY env) = true ->
   exists section,
     selectProvider env =
     Some ([("anthropic", section)], "anthropic/claude-sonnet-4-20250514")) /\
  (present (GEMINI_API_KEY env) = false ->
   present (ANTHROPIC_API_KEY env) = false ->
   present (OPENAI_API_KEY env) = true ->
   exists section,
     selectProvider env = Some ([("openai", section)], "openai/gpt-4o")) /\
  (present (GEMINI_API_KEY env) = true ->
   forall anthropic baseUrl openai,
     selectProvider
       (mkEnv (GEMINI_API_KEY env) anthropic baseUrl openai
              (MOLTBOT_GATEWAY_TOKEN env) (DEV_MODE env))
     = selectProvider env) /\
  (present (GEMINI_API_KEY env) = false ->
   present (ANTHROPIC_API_KEY env) = true ->
   forall openai,
     selectProvider
       (mkEnv (GEMINI_API_KEY env) (ANTHROPIC_API_KEY env)
              (ANTHROPIC_BASE_URL env) openai
              (MOLTBOT_GATEWAY_TOKEN env) (DEV_MODE env))
     = selectProvider env) /\
  (forall providerConfig defaultModel,
      selectProvider env = Some (providerConfig, defaultModel) ->
      List.length (keys providerConfig) = 1%nat).
Proof.
  unfold selectProvider. repeat split.
  - intros Hg. apply key_present in Hg as (k & _ & ->). eauto.
  - intros Hg Ha. apply key_absent in Hg as ->.
    apply key_present in Ha as (k & _ & ->). eauto.
  - intros Hg Ha Ho. apply key_absent in Hg as ->. apply key_absent in Ha as ->.
    apply key_present in Ho as (k & _ & ->). eauto.
  - intros Hg anthropic baseUrl openai. simpl.
    apply key_present in Hg as (k & _ & ->). reflexivity.
  - intros Hg Ha openai. simpl. apply key_absent in Hg as ->.
    apply key_present in Ha as (k & _ & ->). reflexivity.
  - intros providerConfig defaultModel.
    destruct (key (GEMINI_API_KEY env));
      [|destruct (key (ANTHROPIC_API_KEY env));
        [|destruct (key (OPENAI_API_KEY env))]];
      intros [= <- _]; reflexivity.
Qed.

Lemma credential_precedence_witness :
  exists section,
    selectProvider anthropic_only =
    Some ([("anthropic", section)], "anthropic/claude-sonnet-4-20250514").
Proof.
  destruct (credential_precedence anthropic_only) as (_ & Hsecond & _).
  apply Hsecond; reflexivity.
Defined.

(** ** Escaping of the payload *)

Lemma append_empty_r (s : string) : s ++ EmptyString = s.
Proof. induction s; simpl; congruence. Qed.

Lemma append_assoc (a b c : string) : (a ++ b) ++ c = a ++ (b ++ c).
Proof. induction a; simpl; congruence. Qed.

(** Read inside single quotes, the escaped payload followed by the closing
    quote adds exactly the payload to the word being read. *)
Lemma sh_parse_escape (s : string) :
  forall (w rest : string),
    sh_parse true (Some w) (escape s ++ String squote rest)
    = sh_parse false (Some (w ++ s)) rest.
Proof.
  induction s as [|a s IH]; intros w rest.
  - simpl. now rewrite append_empty_r.
  - unfold escape in *. cbn [replace_all].
    destruct (Ascii.eqb a squote) eqn:Ha.
    + apply Ascii.eqb_eq in Ha. subst a. rewrite append_assoc.
      change (sh_parse true (Some w)
                ("'\''" ++ replace_all squote "'\''" s ++ String squote rest))
        with (sh_parse true (Some (w ++ str1 squote))
                (replace_all squote "'\''" s ++ String squote rest)).
      rewrite IH, append_assoc. reflexivity.
    + cbn [append sh_parse]. rewrite Ha, IH, append_assoc. reflexivity.
Qed.

Lemma escape_writeScript : escape writeScript = writeScript.
Proof. vm_compute. reflexivity. Qed.

(** How the shell reads the write command: [mkdir -p /root/.openclaw], then
    [node -e] with the script and the serialized configuration. *)
Lemma sh_commands_writeCmd (configJson : string) :
  sh_commands (writeCmd configJson)
  = Some [["mkdir"; "-p"; "/root/.openclaw"];
          ["node"; "-e"; writeScript; configJson]].
Proof.
  unfold sh_commands, writeCmd.
  change (sh_parse false None
            ("mkdir -p /root/.openclaw && node -e '" ++ writeScript ++ "' '"
             ++ escape configJson ++ "'"))
    with (add_word (Some "mkdir")
           (add_word (Some "-p")
             (add_word (Some "/root/.openclaw")
               (new_command
                 (add_word (Some "node")
                   (add_word (Some "-e")
                     (sh_parse true (Some EmptyString)
                        (writeScript ++ String squote
                           (String " " (String squote
                              (escape configJson ++ String squote EmptyString))))))))))).
  rewrite <- escape_writeScript at 1.
  rewrite sh_parse_escape.
  change (sh_parse false (Some (EmptyString ++ writeScript))
            (String " " (String squote
               (escape configJson ++ String squote EmptyString))))
    with (add_word (Some writeScript)
            (sh_parse true (Some EmptyString)
               (escape configJson ++ String squote EmptyString))).
  rewrite sh_parse_escape. reflexivity.
Qed.

(** ** Running computations *)

Section Runs.
Context {S : Type}.

Lemma bind_returned {A B} (m : M S A) (k : A -> M S B) s a s1 t1 :
  m s = (Returned a, s1, t1) ->
  bind m k s
  = (result (k a s1), final (k a s1), (t1 ++ trace (k a s1))%list).
Proof.
  intros E. unfold bind. rewrite E.
  destruct (k a s1) as [[r s2] t2]. reflexivity.
Qed.

Lemma bind_thrown {A B} (m : M S A) (k : A -> M S B) s e s1 t1 :
  m s = (Thrown e, s1, t1) -> bind m k s = (Thrown e, s1, t1).
Proof. intros E. unfold bind. now rewrite E. Qed.

Lemma try_returned {A} (m : M S A) handler s a s1 t1 :
  m s = (Returned a, s1, t1) -> try_catch m handler s = (Returned a, s1, t1).
Proof. intros E. unfold try_catch. now rewrite E. Qed.

Lemma try_thrown {A} (m : M S A) handler s e s1 t1 :
  m s = (Thrown e, s1, t1) ->
  try_catch m handler s
  = (result (handler e s1), final (handler e s1),
     (t1 ++ trace (handler e s1))%list).
Proof.
  intros E. unfold try_catch. rewrite E.
  destruct (handler e s1) as [[r s2] t2]. reflexivity.
Qed.

Lemma emit_then {B} (ev : Event) (k : unit -> M S B) s :
  bind (emit ev) k s = (result (k tt s), final (k tt s), ev :: trace (k tt s)).
Proof.
  unfold bind, emit. destruct (k tt s) as [[r s2] t2]. reflexivity.
Qed.

Lemma ret_then {A B} (a : A) (k : A -> M S B) s :
  bind (ret a) k s = k a s.
Proof.
  unfold bind, ret. destruct (k a s) as [[r s2] t2]. reflexivity.
Qed.

Lemma await_resolved {A} (ev : Event) (call : S -> Reply A * S) s a s1 :
  call s = (inr a, s1) -> await ev call s = (Returned a, s1, [ev]).
Proof. intros E. unfold await. now rewrite E. Qed.

Lemma await_rejected {A} (ev : Event) (call : S -> Reply A * S) s e s1 :
  call s = (inl e, s1) -> await ev call s = (Thrown e, s1, [ev]).
Proof. intros E. unfold await. now rewrite E. Qed.

Lemma run_eta {A} (r : Outcome A * S * list Event) :
  r = (result r, final r, trace r).
Proof. destruct r as [[o s] t]. reflexivity. Qed.

Lemma trace_bind {A B} (m : M S A) (k : A -> M S B) s :
  trace (bind m k s)
  = (trace (m s)
     ++ match result (m s) with
        | Returned a => trace (k a (final (m s)))
        | Thrown _ => []
        end)%list.
Proof.
  unfold bind, result, final, trace.
  destruct (m s) as [[[a|e] s1] t1]; simpl.
  - destruct (k a s1) as [[r s2] t2]. reflexivity.
  - now rewrite app_nil_r.
Qed.

Lemma trace_emit_then {B} (ev : Event) (k : unit -> M S B) s :
  trace (bind (emit ev) k s) = ev :: trace (k tt s).
Proof. now rewrite emit_then. Qed.

(** *** Rules for [emits] *)

Variable P : Event -> Prop.

Lemma emits_ret {A} (a : A) : emits P (@ret S A a).
Proof. intros s. constructor. Qed.

Lemma emits_throw {A} (e : JsError) : emits P (@throw S A e).
Proof. intros s. constructor. Qed.

Lemma emits_emit (ev : Event) : P ev -> emits P (@emit S ev).
Proof. intros Hev s. repeat constructor. exact Hev. Qed.

Lemma emits_await {A} (ev : Event) (call : S -> Reply A * S) :
  P ev -> emits P (await ev call).
Proof.
  intros Hev s. unfold await.
  destruct (call s) as [[e|a] s1]; repeat constructor; exact Hev.
Qed.

Lemma emits_bind {A B} (m : M S A) (k : A -> M S B) :
  emits P m -> (forall a, emits P (k a)) -> emits P (bind m k).
Proof.
  intros Hm Hk s. specialize (Hm s). unfold bind.
  destruct (m s) as [[[a|e] s1] t1]; simpl in *; [|exact Hm].
  specialize (Hk a s1). destruct (k a s1) as [[r s2] t2]; simpl in *.
  apply Forall_app. split; assumption.
Qed.

Lemma emits_try_catch {A} (m : M S A) (handler : JsError -> M S A) :
  emits P m -> (forall e, emits P (handler e)) -> emits P (try_catch m handler).
Proof.
  intros Hm Hh s. specialize (Hm s). unfold try_catch.
  destruct (m s) as [[[a|e] s1] t1]; simpl in *; [exact Hm|].
  specialize (Hh e s1). destruct (handler e s1) as [[r s2] t2]; simpl in *.
  apply Forall_app. split; assumption.
Qed.

Lemma emits_if {A} (b : bool) (m1 m2 : M S A) :
  emits P m1 -> emits P m2 -> emits P (if b then m1 else m2).
Proof. destruct b; auto. Qed.

Lemma emits_at {A} (m : M S A) (s : S) :
  emits P m -> Forall P (trace (m s)).
Proof. intros Hm. apply Hm. Qed.
End Runs.

(** Decomposes a computation along its binds and handlers; what is left are
    the conditions on the single events. *)
Ltac emits_rules :=
  repeat first
    [ apply emits_ret
    | apply emits_throw
    | apply emits_bind; [|intros ?]
    | apply emits_try_catch; [|intros ?]
    | apply emits_if
    | apply emits_emit
    | apply emits_await ].

(** ** The config seeder *)

(** C7: with none of the three provider keys present, [preseedOpenClawConfig]
    returns without a call to the sandbox: it only logs, and the sandbox is
    left in the state it was in. *)
Theorem preseed_skipped_without_keys
    {S : Type} {sb : Sandbox S} {hp : Helpers S} {imp : Imports}
    (env : MoltbotEnv) (s : S) :
  present (GEMINI_API_KEY env) = false ->
  present (ANTHROPIC_API_KEY env) = false ->
  present (OPENAI_API_KEY env) = false ->
  preseedOpenClawConfig env s
  = (Returned tt, s,
     [EvLog "[Config] Pre-seeding openclaw.json...";
      EvLog "[Config] No provider key found, skipping pre-seed"]).
Proof.
  intros Hg Ha Ho. unfold preseedOpenClawConfig, selectProvider.
  rewrite (key_absent _ Hg), (key_absent _ Ha), (key_absent _ Ho).
  reflexivity.
Qed.

Lemma preseed_skipped_without_keys_witness :
  scripted_preseed no_keys (mkScript [] [] [] [] [inr new_gateway] [ok] [])
  = (Returned tt, mkScript [] [] [] [] [inr new_gateway] [ok] [],
     [EvLog "[Config] Pre-seeding openclaw.json...";
      EvLog "[Config] No provider key found, skipping pre-seed"]).
Proof.
  apply (preseed_skipped_without_keys (sb := scripted_sandbox)
           (hp := scripted_helpers) (imp := sample_imports) no_keys);
    reflexivity.
Defined.

Lemma preseed_emits {S : Type} {sb : Sandbox S} {hp : Helpers S} {imp : Imports}
    (P : Event -> Prop) (env : MoltbotEnv) :
  (forall label, P (EvLog label)) ->
  (forall label, P (EvLogError label)) ->
  (forall cmd, is_launch (EvStartProcess cmd None) = false ->
               P (EvStartProcess cmd None)) ->
  (forall proc timeout, P (EvWaitForProcess proc timeout)) ->
  (forall proc, P (EvGetLogs proc)) ->
  emits P (preseedOpenClawConfig env).
Proof.
  intros Hlog Herr Hstart Hwait Hlogs. unfold preseedOpenClawConfig.
  apply emits_bind; [apply emits_emit, Hlog|intros _].
  destruct (selectProvider env) as [[providerConfig defaultModel]|];
    [|apply emits_emit, Hlog].
  unfold console_log, console_error, startProcess, waitForProcess, getLogs.
  emits_rules; auto.
Qed.

Lemma preseed_returns {S : Type} {sb : Sandbox S} {hp : Helpers S} {imp : Imports}
    (env : MoltbotEnv) (s : S) :
  result (preseedOpenClawConfig env s) = Returned tt.
Proof.
  unfold preseedOpenClawConfig, console_log.
  rewrite emit_then. unfold result at 1. simpl.
  destruct (selectProvider env) as [[providerConfig defaultModel]|];
    [|reflexivity].
  unfold try_catch, bind, startProcess, waitForProcess, getLogs, await,
    console_log, console_error, emit, ret.
  destruct (sb_startProcess _ _ s) as [[e|proc] s1]; [reflexivity|].
  destruct (hp_waitForProcess proc 5000 s1) as [[e|[]] s2]; [reflexivity|].
  destruct (sb_getLogs proc s2) as [[e|logs] s3]; [reflexivity|].
  destruct (truthy (stderr logs)); reflexivity.
Qed.

(** ** The supervisor *)

Section SupervisorFacts.
Context {S : Type} {sb : Sandbox S} {hp : Helpers S} {imp : Imports}.

(** Discovery never throws: a failed listing is no candidate. *)
Lemma findExisting_cases (s : S) :
  (exists processes s1,
      sb_listProcesses s = (inr processes, s1) /\
      findExistingMoltbotProcess s
      = (Returned (findGateway processes), s1, [EvListProcesses])) \/
  (exists e s1,
      sb_listProcesses s = (inl e, s1) /\
      findExistingMoltbotProcess s
      = (Returned None, s1,
         [EvListProcesses; EvLog "Could not list processes:"])).
Proof.
  unfold findExistingMoltbotProcess, listProcesses, try_catch, bind, await,
    console_log, emit, ret.
  destruct (sb_listProcesses s) as [[e|processes] s1]; [right|left]; eauto.
Qed.

(** The probe of an existing process that answers: it is returned. *)
Lemma reuse_ready (existing : Process) (s s1 : S) :
  sb_waitForPort existing MOLTBOT_PORT "tcp" STARTUP_TIMEOUT_MS s = (inr tt, s1) ->
  reuseExisting (Some existing) s
  = (Returned (Some existing), s1,
     [EvLog "Found existing gateway process:";
      EvLog "Waiting for gateway on port";
      EvWaitForPort existing MOLTBOT_PORT "tcp" STARTUP_TIMEOUT_MS;
      EvLog "Gateway is reachable"]).
Proof.
  intros Hport.
  unfold reuseExisting, waitForPort, try_catch, bind, await, console_log,
    emit, ret.
  rewrite Hport. reflexivity.
Qed.

(** The probe of an existing process that times out: one kill, whose
    failure is logged, and no handle. *)
Lemma reuse_timeout (existing : Process) (s s1 : S) (e : JsError) :
  sb_waitForPort existing MOLTBOT_PORT "tcp" STARTUP_TIMEOUT_MS s = (inl e, s1) ->
  reuseExisting (Some existing) s
  = (Returned None, snd (sb_kill existing s1),
     [EvLog "Found existing gateway process:";
      EvLog "Waiting for gateway on port";
      EvWaitForPort existing MOLTBOT_PORT "tcp" STARTUP_TIMEOUT_MS;
      EvLog "Existing process not reachable after full timeout, killing and restarting...";
      EvKill existing]
     ++ match fst (sb_kill existing s1) with
        | inl _ => [EvLog "Failed to kill process:"]
        | inr _ => []
        end)%list.
Proof.
  intros Hport.
  unfold reuseExisting, waitForPort, kill, try_catch, bind, await,
    console_log, emit, ret.
  rewrite Hport.
  destruct (sb_kill existing s1) as [[ek|[]] s2]; reflexivity.
Qed.

Lemma ensure_reuse (env : MoltbotEnv) (s s1 s2 s3 : S)
    (processes : list Process) (existing : Process) :
  hp_ensureRcloneConfig env s = (inr tt, s1) ->
  sb_listProcesses s1 = (inr processes, s2) ->
  findGateway processes = Some existing ->
  sb_waitForPort existing MOLTBOT_PORT "tcp" STARTUP_TIMEOUT_MS s2 = (inr tt, s3) ->
  ensureMoltbotGateway env s
  = (Returned existing, s3,
     [EvEnsureRcloneConfig; EvListProcesses;
      EvLog "Found existing gateway process:";
      EvLog "Waiting for gateway on port";
      EvWaitForPort existing MOLTBOT_PORT "tcp" STARTUP_TIMEOUT_MS;
      EvLog "Gateway is reachable"]).
Proof.
  intros Hrclone Hlist Hfind Hport. unfold ensureMoltbotGateway.
  rewrite (bind_returned _ _ s tt s1 [EvEnsureRcloneConfig])
    by (apply await_resolved, Hrclone).
  destruct (findExisting_cases s1) as
    [(ps & s2' & Hl & Hf)|(e & s2' & Hl & _)];
    rewrite Hlist in Hl; [|discriminate].
  injection Hl as <- <-. rewrite Hfind in Hf.
  rewrite (bind_returned _ _ s1 _ _ _ Hf).
  rewrite (bind_returned _ _ s2 _ _ _ (reuse_ready existing s2 s3 Hport)).
  reflexivity.
Qed.

(** C4: when an existing live candidate is found and its readiness probe
    succeeds, [ensureMoltbotGateway] returns that handle; it lists the
    processes and probes the port, and issues no kill and no
    [startProcess], so neither a launch nor a config write. *)
Theorem reuse_path_frame (env : MoltbotEnv) (s s1 s2 s3 : S)
    (processes : list Process) (existing : Process) :
  hp_ensureRcloneConfig env s = (inr tt, s1) ->
  sb_listProcesses s1 = (inr processes, s2) ->
  findGateway processes = Some existing ->
  sb_waitForPort existing MOLTBOT_PORT "tcp" STARTUP_TIMEOUT_MS s2 = (inr tt, s3) ->
  ensureMoltbotGateway env s
  = (Returned existing, s3,
     [EvEnsureRcloneConfig; EvListProcesses;
      EvLog "Found existing gateway process:";
      EvLog "Waiting for gateway on port";
      EvWaitForPort existing MOLTBOT_PORT "tcp" STARTUP_TIMEOUT_MS;
      EvLog "Gateway is reachable"]) /\
  count is_kill (trace (ensureMoltbotGateway env s)) = 0%nat /\
  count is_startProcess (trace (ensureMoltbotGateway env s)) = 0%nat.
Proof.
  intros Hrclone Hlist Hfind Hport.
  rewrite (ensure_reuse env s s1 s2 s3 processes existing
             Hrclone Hlist Hfind Hport).
  repeat split.
Qed.

(** *** Counting events *)

Lemma count_app (f : Event -> bool) (t1 t2 : list Event) :
  count f (t1 ++ t2) = (count f t1 + count f t2)%nat.
Proof. unfold count. now rewrite filter_app, length_app. Qed.

Lemma count_none (f : Event -> bool) (t : list Event) :
  Forall (fun ev => f ev = false) t -> count f t = 0%nat.
Proof.
  unfold count. induction 1 as [|ev t Hev _ IH]; simpl; [reflexivity|].
  now rewrite Hev.
Qed.

Lemma count_cons (f : Event -> bool) (ev : Event) (t : list Event) :
  count f (ev :: t) = ((if f ev then 1 else 0) + count f t)%nat.
Proof. unfold count. simpl. destruct (f ev); reflexivity. Qed.

Lemma count_nil (f : Event -> bool) : count f [] = 0%nat.
Proof. reflexivity. Qed.

Lemma quiet_counts (t : list Event) :
  Forall quiet t ->
  count is_kill t = 0%nat /\ count is_startProcess t = 0%nat /\
  count is_seeding t = 0%nat.
Proof.
  intros Hq. repeat split; apply count_none;
    (eapply Forall_impl; [|exact Hq]); intros ev (Hk & Hs & Hd); assumption.
Qed.

Lemma launch_is_startProcess (ev : Event) :
  is_startProcess ev = false -> is_launch ev = false.
Proof. destruct ev; simpl; congruence. Qed.

(** *** The fresh start, block by block *)

Lemma launch_run (envVars : list (string * string)) (s : S) :
  let env := if Nat.ltb 0 (List.length envVars) then Some envVars else None in
  launch envVars s =
  match sb_startProcess gatewayCommand env s with
  | (inr process, s1) =>
      (Returned process, s1,
       [EvStartProcess gatewayCommand env; EvLog "Process started with id:"])
  | (inl startErr, s1) =>
      (Thrown startErr, s1,
       [EvStartProcess gatewayCommand env; EvLogError "Failed to start process:"])
  end.
Proof.
  unfold launch, startProcess, try_catch, bind, await, console_log,
    console_error, emit, ret, throw.
  destruct (sb_startProcess _ _ s) as [[e|process] s1]; reflexivity.
Qed.

(** The outcome of the wait: the error of the probe when it times out, the
    error of [getLogs] when the probe succeeds and the logs cannot be read. *)
Lemma awaitReady_result (process : Process) (s : S) :
  result (awaitReady process s) =
  match sb_waitForPort process MOLTBOT_PORT "tcp" STARTUP_TIMEOUT_MS s with
  | (inl e, _) => Thrown e
  | (inr _, s1) =>
      match sb_getLogs process s1 with
      | (inl e, _) => Thrown e
      | (inr _, _) => Returned tt
      end
  end.
Proof.
  unfold awaitReady, waitForPort, getLogs, try_catch, bind, await,
    console_log, console_error, emit, ret, throw.
  destruct (sb_waitForPort _ _ _ _ s) as [[e|[]] s1].
  - destruct (sb_getLogs process s1) as [[e'|logs] s2]; reflexivity.
  - destruct (sb_getLogs process s1) as [[e|logs] s2].
    + destruct (sb_getLogs process s2) as [[e'|logs] s3]; reflexivity.
    + destruct (truthy (stdout logs)), (truthy (stderr logs)); reflexivity.
Qed.

Lemma awaitReady_emits (P : Event -> Prop) (process : Process) :
  (forall label, is_seeding (EvLog label) = false -> P (EvLog label)) ->
  (forall label, P (EvLogError label)) ->
  P (EvWaitForPort process MOLTBOT_PORT "tcp" STARTUP_TIMEOUT_MS) ->
  P (EvGetLogs process) ->
  emits P (awaitReady process).
Proof.
  intros Hlog Herr Hport Hlogs.
  unfold awaitReady, waitForPort, getLogs, console_log, console_error.
  emits_rules; auto; apply Hlog; reflexivity.
Qed.

(** The trace of a fresh start: the seeding, then the launch of the start
    script, then events that are neither a kill nor a [startProcess]. *)
Lemma fresh_start_trace (env : MoltbotEnv) (s : S) :
  exists seeding env' after,
    trace (preseedOpenClawConfig env s) = seeding_started :: seeding /\
    Forall (fun ev => is_kill ev = false /\ is_launch ev = false /\
                      is_seeding ev = false) seeding /\
    Forall quiet after /\
    trace (startNewGateway env s)
    = (EvLog "Starting new OpenClaw gateway..." :: seeding_started :: seeding
       ++ EvLog "Starting process with command:"
       :: EvLog "Environment vars being passed:"
       :: EvStartProcess gatewayCommand env' :: after)%list.
Proof.
  unfold startNewGateway, console_log.
  rewrite trace_emit_then, trace_bind, preseed_returns.
  assert (Hseed : exists seeding,
             trace (preseedOpenClawConfig env s) = seeding_started :: seeding /\
             Forall (fun ev => is_kill ev = false /\ is_launch ev = false /\
                               is_seeding ev = false) seeding).
  { unfold preseedOpenClawConfig, console_log. rewrite trace_emit_then.
    eexists. split; [reflexivity|].
    destruct (selectProvider env) as [[providerConfig defaultModel]|];
      [|repeat constructor].
    apply emits_at.
    unfold startProcess, waitForProcess, getLogs, console_error.
    emits_rules; repeat split. }
  destruct Hseed as (seeding & -> & Hseeding).
  set (s1 := final (preseedOpenClawConfig env s)).
  rewrite !trace_emit_then, trace_bind, launch_run.
  set (env' := if Nat.ltb 0 (List.length (buildEnvVars env)) then _ else _).
  destruct (sb_startProcess gatewayCommand env' s1) as [[e|process] s2]; simpl.
  - exists seeding, env', [EvLogError "Failed to start process:"].
    repeat split; auto. repeat constructor.
  - eexists seeding, env', _.
    split; [reflexivity|]. split; [exact Hseeding|]. split; [|reflexivity].
    constructor; [repeat split|].
    apply emits_at. apply emits_bind; [|intros _].
    + apply awaitReady_emits; repeat split. assumption.
    + emits_rules. repeat split.
Qed.

(** The outcome of a fresh start: the error of the launch, else the error
    of the wait, else the launched handle. *)
Lemma fresh_start_result (env : MoltbotEnv) (s : S) :
  let envVars := buildEnvVars env in
  let env' := if Nat.ltb 0 (List.length envVars) then Some envVars else None in
  result (startNewGateway env s) =
  match sb_startProcess gatewayCommand env' (final (preseedOpenClawConfig env s)) with
  | (inl startErr, _) => Thrown startErr
  | (inr process, s1) =>
      match result (awaitReady process s1) with
      | Thrown e => Thrown e
      | Returned _ => Returned process
      end
  end.
Proof.
  intros envVars env'. unfold startNewGateway, console_log.
  rewrite emit_then. unfold result at 1. cbn [fst].
  rewrite (bind_returned _ _ s tt (final (preseedOpenClawConfig env s))
             (trace (preseedOpenClawConfig env s)))
    by (rewrite <- (preseed_returns env s); apply run_eta).
  unfold result at 1. cbn [fst].
  rewrite !emit_then. unfold result at 1 2. cbn [fst].
  unfold bind at 1. rewrite launch_run. fold envVars env'.
  destruct (sb_startProcess gatewayCommand env' _) as [[e|process] s1];
    [reflexivity|].
  unfold bind at 1.
  destruct (awaitReady process s1) as [[[[]|e] s2] t2]; reflexivity.
Qed.

(** *** The paths of [ensureMoltbotGateway] *)

Lemma ensure_mount_rejected (env : MoltbotEnv) (s s1 : S) (e : JsError) :
  hp_ensureRcloneConfig env s = (inl e, s1) ->
  ensureMoltbotGateway env s = (Thrown e, s1, [EvEnsureRcloneConfig]).
Proof.
  intros Hrclone. unfold ensureMoltbotGateway.
  apply bind_thrown, await_rejected, Hrclone.
Qed.

Lemma ensure_no_candidate (env : MoltbotEnv) (s s1 s2 : S) (found : list Event) :
  hp_ensureRcloneConfig env s = (inr tt, s1) ->
  findExistingMoltbotProcess s1 = (Returned None, s2, found) ->
  ensureMoltbotGateway env s
  = (result (startNewGateway env s2), final (startNewGateway env s2),
     (EvEnsureRcloneConfig :: found ++ trace (startNewGateway env s2))%list).
Proof.
  intros Hrclone Hfind. unfold ensureMoltbotGateway.
  rewrite (bind_returned _ _ s tt s1 [EvEnsureRcloneConfig])
    by (apply await_resolved, Hrclone).
  rewrite (bind_returned _ _ s1 _ _ _ Hfind).
  cbn [reuseExisting]. rewrite ret_then.
  unfold result, final, trace. cbn [fst snd app]. reflexivity.
Qed.

Lemma ensure_restart (env : MoltbotEnv) (s s1 s2 s3 : S)
    (processes : list Process) (existing : Process) (e : JsError) :
  hp_ensureRcloneConfig env s = (inr tt, s1) ->
  sb_listProcesses s1 = (inr processes, s2) ->
  findGateway processes = Some existing ->
  sb_waitForPort existing MOLTBOT_PORT "tcp" STARTUP_TIMEOUT_MS s2 = (inl e, s3) ->
  let s4 := snd (sb_kill existing s3) in
  ensureMoltbotGateway env s
  = (result (startNewGateway env s4), final (startNewGateway env s4),
     ([EvEnsureRcloneConfig; EvListProcesses;
       EvLog "Found existing gateway process:";
       EvLog "Waiting for gateway on port";
       EvWaitForPort existing MOLTBOT_PORT "tcp" STARTUP_TIMEOUT_MS;
       EvLog "Existing process not reachable after full timeout, killing and restarting...";
       EvKill existing]
      ++ match fst (sb_kill existing s3) with
         | inl _ => [EvLog "Failed to kill process:"]
         | inr _ => []
         end
      ++ trace (startNewGateway env s4))%list).
Proof.
  intros Hrclone Hlist Hfind Hport s4. unfold ensureMoltbotGateway.
  rewrite (bind_returned _ _ s tt s1 [EvEnsureRcloneConfig])
    by (apply await_resolved, Hrclone).
  destruct (findExisting_cases s1) as
    [(ps & s2' & Hl & Hf)|(e' & s2' & Hl & _)];
    rewrite Hlist in Hl; [|discriminate].
  injection Hl as <- <-. rewrite Hfind in Hf.
  rewrite (bind_returned _ _ s1 _ _ _ Hf).
  rewrite (bind_returned _ _ s2 _ _ _ (reuse_timeout existing s2 s3 e Hport)).
  fold s4. unfold result, final, trace. cbn [fst snd app].
  reflexivity.
Qed.

(** The restart path: one kill, of the old process, one seeding and one
    launch, whatever the sandbox answers afterwards; a handle that is
    returned is the one the launch resolved to, from the state the seeding
    left, and its probe and the reading of its logs resolved. *)
Lemma restart_path_effects (env : MoltbotEnv) (s s1 s2 s3 : S)
    (processes : list Process) (existing : Process) (e : JsError) :
  hp_ensureRcloneConfig env s = (inr tt, s1) ->
  sb_listProcesses s1 = (inr processes, s2) ->
  findGateway processes = Some existing ->
  sb_waitForPort existing MOLTBOT_PORT "tcp" STARTUP_TIMEOUT_MS s2 = (inl e, s3) ->
  count is_kill (trace (ensureMoltbotGateway env s)) = 1%nat /\
  In (EvKill existing) (trace (ensureMoltbotGateway env s)) /\
  count is_seeding (trace (ensureMoltbotGateway env s)) = 1%nat /\
  count is_launch (trace (ensureMoltbotGateway env s)) = 1%nat /\
  (forall process,
      result (ensureMoltbotGateway env s) = Returned process ->
      exists s5 s6 logs s7,
        sb_startProcess gatewayCommand (passedEnv env)
          (final (preseedOpenClawConfig env (snd (sb_kill existing s3))))
        = (inr process, s5) /\
        sb_waitForPort process MOLTBOT_PORT "tcp" STARTUP_TIMEOUT_MS s5
        = (inr tt, s6) /\
        sb_getLogs process s6 = (inr logs, s7)).
Proof.
  intros Hrclone Hlist Hfind Hport.
  pose proof (ensure_restart env s s1 s2 s3 processes existing e
                Hrclone Hlist Hfind Hport) as Hrun.
  cbv zeta in Hrun. set (s4 := snd (sb_kill existing s3)) in *.
  destruct (fresh_start_trace env s4)
    as (seeding & env' & after & _ & Hseeding & Hafter & Htrace).
  rewrite Htrace in Hrun.
  assert (Hr : result (ensureMoltbotGateway env s)
               = result (startNewGateway env s4)) by now rewrite Hrun.
  apply (f_equal trace) in Hrun. unfold trace at 2 in Hrun. cbn [snd] in Hrun.
  rewrite Hrun, Hr. clear Hrun Hr.
  destruct (quiet_counts after Hafter) as (Hk & Hs & Hd).
  assert (Hl : count is_launch after = 0%nat).
  { apply count_none. eapply Forall_impl; [|exact Hafter].
    intros ev (_ & Hsp & _). now apply launch_is_startProcess. }
  assert (Hsk : count is_kill seeding = 0%nat /\
                count is_launch seeding = 0%nat /\
                count is_seeding seeding = 0%nat).
  { repeat split; apply count_none;
      (eapply Forall_impl; [|exact Hseeding]); intros ev (H1 & H2 & H3);
      assumption. }
  destruct Hsk as (Hsk & Hsl & Hss).
  split; [|split; [|split; [|split]]].
  - rewrite !count_app, !count_cons, !count_app, !count_cons, Hk, Hsk.
    destruct (fst (sb_kill existing s3)); reflexivity.
  - apply in_or_app. left. simpl. tauto.
  - rewrite !count_app, !count_cons, !count_app, !count_cons, Hd, Hss.
    destruct (fst (sb_kill existing s3)); reflexivity.
  - rewrite !count_app, !count_cons, !count_app, !count_cons, Hl, Hsl.
    destruct (fst (sb_kill existing s3)); reflexivity.
  - intros process. rewrite fresh_start_result. cbv zeta.
    fold (passedEnv env).
    destruct (sb_startProcess gatewayCommand (passedEnv env) _)
      as [[e'|launched] s5] eqn:Hstart; [discriminate|].
    rewrite awaitReady_result.
    destruct (sb_waitForPort launched MOLTBOT_PORT "tcp" STARTUP_TIMEOUT_MS s5)
      as [[e'|[]] s6] eqn:Hprobe; [discriminate|].
    destruct (sb_getLogs launched s6) as [[e'|logs] s7] eqn:Hlogs;
      [discriminate|].
    intros [= <-]. exists s5, s6, logs, s7. auto.
Qed.

(** The events before the fresh start, if there is one: none of them starts
    a process or the seeding. *)
Lemma ensure_trace (env : MoltbotEnv) (s : S) :
  exists before,
    Forall (fun ev => is_seeding ev = false) before /\
    (trace (ensureMoltbotGateway env s) = before \/
     exists s',
       trace (ensureMoltbotGateway env s)
       = (before ++ trace (startNewGateway env s'))%list).
Proof.
  destruct (hp_ensureRcloneConfig env s) as [[e|[]] s1] eqn:Hrclone.
  { rewrite (ensure_mount_rejected env s s1 e Hrclone).
    eexists. split; [|left; reflexivity]. repeat constructor. }
  destruct (findExisting_cases s1) as
    [(processes & s2 & Hlist & Hfind)|(e & s2 & Hlist & Hfind)].
  - destruct (findGateway processes) as [existing|] eqn:Hgw.
    + destruct (sb_waitForPort existing MOLTBOT_PORT "tcp" STARTUP_TIMEOUT_MS s2)
        as [[e|[]] s3] eqn:Hport.
      * rewrite (ensure_restart env s s1 s2 s3 processes existing e
                   Hrclone Hlist Hgw Hport).
        eexists. split; [|right; eexists; unfold trace at 1; cbn [snd];
                          rewrite app_assoc; reflexivity].
        apply Forall_app. split; [repeat constructor|].
        destruct (fst (sb_kill existing s3)); repeat constructor.
      * rewrite (ensure_reuse env s s1 s2 s3 processes existing
                   Hrclone Hlist Hgw Hport).
        eexists. split; [|left; reflexivity]. repeat constructor.
    + rewrite (ensure_no_candidate env s s1 s2 _ Hrclone Hfind).
      exists [EvEnsureRcloneConfig; EvListProcesses].
      split; [repeat constructor|right; eexists; reflexivity].
  - rewrite (ensure_no_candidate env s s1 s2 _ Hrclone Hfind).
    exists [EvEnsureRcloneConfig; EvListProcesses;
            EvLog "Could not list processes:"].
    split; [repeat constructor|right; eexists; reflexivity].
Qed.

(** Where a trace splits at its only occurrence of an event. *)
Lemma split_at_only (f : Event -> bool) (x : Event)
    (pre post before after : list Event) :
  f x = true ->
  Forall (fun ev => f ev = false) pre ->
  Forall (fun ev => f ev = false) post ->
  (pre ++ x :: post = before ++ x :: after)%list ->
  after = post.
Proof.
  intros Hx Hpre Hpost. revert before.
  induction Hpre as [|p pre Hp _ IH]; intros before E.
  - destruct before as [|b before]; simpl in E.
    + now injection E.
    + injection E as _ E. subst post.
      apply Forall_app in Hpost as [_ Hpost].
      inversion Hpost; subst. congruence.
  - destruct before as [|b before]; simpl in E.
    + injection E as E _. congruence.
    + injection E as _ E. eauto.
Qed.

(** C8: the config seeder never fails the supervision flow: whatever the
    sandbox answers to the write (starting the write process, waiting for
    it, reading its logs), [preseedOpenClawConfig] returns normally, and in
    every run of [ensureMoltbotGateway] the start of the seeding is followed
    by the launch of the gateway. *)
Theorem seeder_never_fails (env : MoltbotEnv) (s : S) :
  result (preseedOpenClawConfig env s) = Returned tt /\
  (forall before after,
      trace (ensureMoltbotGateway env s)
      = (before ++ seeding_started :: after)%list ->
      exists env', In (EvStartProcess gatewayCommand env') after).
Proof.
  split; [apply preseed_returns|].
  intros before after Hsplit.
  destruct (ensure_trace env s) as (pre & Hpre & [Htrace|(s' & Htrace)]).
  - rewrite Htrace in Hsplit. subst pre.
    apply Forall_app in Hpre as [_ Hpre]. inversion Hpre; subst. discriminate.
  - destruct (fresh_start_trace env s')
      as (seeding & env' & rest & _ & Hseeding & Hrest & Hfresh).
    rewrite Htrace, Hfresh in Hsplit. exists env'.
    change (EvLog "Starting new OpenClaw gateway..." :: seeding_started
            :: seeding ++ EvLog "Starting process with command:"
            :: EvLog "Environment vars being passed:"
            :: EvStartProcess gatewayCommand env' :: rest)%list
      with ([EvLog "Starting new OpenClaw gateway..."]
            ++ seeding_started
            :: (seeding ++ EvLog "Starting process with command:"
                :: EvLog "Environment vars being passed:"
                :: EvStartProcess gatewayCommand env' :: rest))%list in Hsplit.
    rewrite app_assoc in Hsplit.
    apply (split_at_only is_seeding) in Hsplit.
    + subst after. apply in_or_app. right. simpl. tauto.
    + reflexivity.
    + apply Forall_app. split; [exact Hpre|repeat constructor].
    + apply Forall_app. split.
      * eapply Forall_impl; [|exact Hseeding]. now intros ev (_ & _ & H).
      * repeat constructor.
        eapply Forall_impl; [|exact Hrest]. now intros ev (_ & _ & H).
Qed.

Lemma ensure_emits_full_timeout (env : MoltbotEnv) :
  emits full_timeout_probe (ensureMoltbotGateway env).
Proof.
  unfold ensureMoltbotGateway.
  apply emits_bind; [apply emits_await; exact I|intros _].
  apply emits_bind; [|intros existingProcess].
  { unfold findExistingMoltbotProcess, listProcesses, console_log.
    emits_rules; exact I. }
  apply emits_bind; [|intros [existing|]].
  - destruct existingProcess as [existing|]; [|apply emits_ret].
    unfold reuseExisting, waitForPort, kill, console_log.
    emits_rules; simpl; auto.
  - apply emits_ret.
  - unfold startNewGateway.
    apply emits_bind; [apply emits_emit; exact I|intros _].
    apply emits_bind; [apply preseed_emits; intros; exact I|intros _].
    apply emits_bind; [apply emits_emit; exact I|intros _].
    apply emits_bind; [apply emits_emit; exact I|intros _].
    apply emits_bind; [|intros process].
    + unfold launch, startProcess, console_log, console_error.
      emits_rules; exact I.
    + apply emits_bind; [|intros _; emits_rules; exact I].
      apply awaitReady_emits; simpl; auto.
Qed.

(** C9: when an existing live candidate is found, the readiness probe on it
    is issued with [STARTUP_TIMEOUT_MS]; every readiness probe of the run,
    the one on a freshly launched process included, carries that timeout. *)
Theorem reuse_probe_full_timeout (env : MoltbotEnv) (s s1 s2 : S)
    (processes : list Process) (existing : Process) :
  hp_ensureRcloneConfig env s = (inr tt, s1) ->
  sb_listProcesses s1 = (inr processes, s2) ->
  findGateway processes = Some existing ->
  In (EvWaitForPort existing MOLTBOT_PORT "tcp" STARTUP_TIMEOUT_MS)
     (trace (ensureMoltbotGateway env s)) /\
  (forall proc port mode timeout,
      In (EvWaitForPort proc port mode timeout)
         (trace (ensureMoltbotGateway env s)) ->
      timeout = STARTUP_TIMEOUT_MS).
Proof.
  intros Hrclone Hlist Hfind. split.
  - destruct (sb_waitForPort existing MOLTBOT_PORT "tcp" STARTUP_TIMEOUT_MS s2)
      as [[e|[]] s3] eqn:Hport.
    + rewrite (ensure_restart env s s1 s2 s3 processes existing e
                 Hrclone Hlist Hfind Hport).
      unfold trace. cbn [snd]. apply in_or_app. left. simpl. tauto.
    + rewrite (ensure_reuse env s s1 s2 s3 processes existing
                 Hrclone Hlist Hfind Hport).
      simpl. tauto.
  - intros proc port mode timeout Hin.
    pose proof (ensure_emits_full_timeout env s) as Hall.
    rewrite Forall_forall in Hall. apply Hall in Hin. simpl in Hin. tauto.
Qed.

End SupervisorFacts.

(** ** Concrete runs *)

Lemma reuse_path_frame_witness :
  scripted_ensure no_keys reuse_script
  = (Returned old_gateway, mkScript [] [] [] [] [] [] [],
     [EvEnsureRcloneConfig; EvListProcesses;
      EvLog "Found existing gateway process:";
      EvLog "Waiting for gateway on port";
      EvWaitForPort old_gateway 18789 "tcp" 180000;
      EvLog "Gateway is reachable"]).
Proof.
  exact (proj1 (reuse_path_frame (sb := scripted_sandbox)
                  (hp := scripted_helpers) (imp := sample_imports)
                  no_keys reuse_script
                  (mkScript [] [inr [devices_cli; old_gateway]] [ok] [] [] [] [])
                  (mkScript [] [] [ok] [] [] [] [])
                  (mkScript [] [] [] [] [] [] [])
                  [devices_cli; old_gateway] old_gateway
                  eq_refl eq_refl eq_refl eq_refl)).
Defined.

Lemma reuse_probe_full_timeout_witness :
  In (EvWaitForPort old_gateway 18789 "tcp" 180000)
     (trace (scripted_ensure no_keys reuse_script)).
Proof.
  exact (proj1 (reuse_probe_full_timeout (sb := scripted_sandbox)
                  (hp := scripted_helpers) (imp := sample_imports)
                  no_keys reuse_script
                  (mkScript [] [inr [devices_cli; old_gateway]] [ok] [] [] [] [])
                  (mkScript [] [] [ok] [] [] [] [])
                  [devices_cli; old_gateway] old_gateway
                  eq_refl eq_refl eq_refl)).
Defined.

Lemma seeder_never_fails_witness :
  result (scripted_preseed anthropic_only write_fails_script) = Returned tt /\
  exists env',
    In (EvStartProcess gatewayCommand env')
       (skipn 4 (trace (scripted_ensure anthropic_only write_fails_script))).
Proof.
  destruct (seeder_never_fails (sb := scripted_sandbox)
              (hp := scripted_helpers) (imp := sample_imports)
              anthropic_only write_fails_script) as [Hreturns Hlaunch].
  split; [exact Hreturns|].
  apply (Hlaunch
           (firstn 3 (trace (scripted_ensure anthropic_only write_fails_script)))).
  vm_compute. reflexivity.
Defined.

(** C1, on the code: a fresh start whose probe times out and whose logs
    are retrieved, with [boom] on the standard error.  The error built from
    the logs is thrown inside the [try] whose [catch] throws the error of the
    probe: the error raised is the one of the probe, and [boom] is not in
    its message. *)
Theorem fresh_timeout_error_drops_stderr :
  run_scripted (scripted_ensure no_keys) fresh_timeout_script
  = (Thrown (Error "timed out waiting for port"),
     [EvEnsureRcloneConfig; EvListProcesses;
      EvLog "Starting new OpenClaw gateway...";
      EvLog "[Config] Pre-seeding openclaw.json...";
      EvLog "[Config] No provider key found, skipping pre-seed";
      EvLog "Starting process with command:";
      EvLog "Environment vars being passed:";
      EvStartProcess "/usr/local/bin/start-openclaw.sh" None;
      EvLog "Process started with id:";
      EvLog "[Gateway] Waiting for OpenClaw gateway to be ready on port";
      EvWaitForPort new_gateway 18789 "tcp" 180000;
      EvLogError "[Gateway] waitForPort failed:";
      EvGetLogs new_gateway;
      EvLogError "[Gateway] startup failed. Stderr:";
      EvLogError "[Gateway] startup failed. Stdout:";
      EvLogError "[Gateway] Failed to get logs:"]) /\
  includes (message (Error "timed out waiting for port")) "boom" = false.
Proof. split; vm_compute; reflexivity. Qed.

(** C2, on the code: a fresh start whose probe succeeds and whose first
    [getLogs] is rejected.  The rejection is caught by the handler of the
    probe and thrown again: the supervisor throws instead of returning the
    launched handle. *)
Theorem fresh_ready_logs_failure_is_fatal :
  run_scripted (scripted_ensure no_keys) fresh_logs_fail_script
  = (Thrown (Error "logs unavailable"),
     [EvEnsureRcloneConfig; EvListProcesses;
      EvLog "Starting new OpenClaw gateway...";
      EvLog "[Config] Pre-seeding openclaw.json...";
      EvLog "[Config] No provider key found, skipping pre-seed";
      EvLog "Starting process with command:";
      EvLog "Environment vars being passed:";
      EvStartProcess "/usr/local/bin/start-openclaw.sh" None;
      EvLog "Process started with id:";
      EvLog "[Gateway] Waiting for OpenClaw gateway to be ready on port";
      EvWaitForPort new_gateway 18789 "tcp" 180000;
      EvLog "[Gateway] OpenClaw gateway is ready!";
      EvGetLogs new_gateway;
      EvLogError "[Gateway] waitForPort failed:";
      EvGetLogs new_gateway;
      EvLogError "[Gateway] startup failed. Stderr:";
      EvLogError "[Gateway] startup failed. Stdout:";
      EvLogError "[Gateway] Failed to get logs:"]).
Proof. vm_compute. reflexivity. Qed.

(** C3, on the code: the restart path with a launch that becomes ready and
    a rejected [getLogs].  One kill, one seeding and one launch are issued,
    and the supervisor throws instead of returning the launched handle. *)
Theorem restart_ready_logs_failure_is_fatal :
  result (scripted_ensure anthropic_only restart_logs_fail_script)
  = Thrown (Error "logs unavailable") /\
  count is_kill (trace (scripted_ensure anthropic_only restart_logs_fail_script))
  = 1%nat /\
  count is_seeding (trace (scripted_ensure anthropic_only restart_logs_fail_script))
  = 1%nat /\
  count is_launch (trace (scripted_ensure anthropic_only restart_logs_fail_script))
  = 1%nat /\
  List.filter
    (fun ev => match ev with EvWaitForPort _ _ _ _ => true | _ => false end)
    (trace (scripted_ensure anthropic_only restart_logs_fail_script))
  = [EvWaitForPort old_gateway 18789 "tcp" 180000;
     EvWaitForPort new_gateway 18789 "tcp" 180000].
Proof. repeat split; vm_compute; reflexivity. Qed.

(** * Further properties of the module *)

Section Outcomes.
Context {S : Type} {sb : Sandbox S} {hp : Helpers S} {imp : Imports}.

(** Discovery never throws: it always returns, and a rejected listing is
    answered with no candidate, after one call and one log. *)
Theorem discovery_never_throws (s : S) :
  (exists found, result (findExistingMoltbotProcess s) = Returned found) /\
  (forall e s1,
      sb_listProcesses s = (inl e, s1) ->
      findExistingMoltbotProcess s
      = (Returned None, s1,
         [EvListProcesses; EvLog "Could not list processes:"])).
Proof.
  destruct (findExisting_cases s) as
    [(processes & s1 & Hlist & Hrun)|(e & s1 & Hlist & Hrun)];
    rewrite Hrun; (split; [eexists; reflexivity|]).
  - intros e s1' Hrej. rewrite Hlist in Hrej. discriminate.
  - intros e' s1' Hrej. rewrite Hlist in Hrej. now injection Hrej as _ <-.
Qed.

(** The mount helper is awaited outside every handler: when it is rejected
    the supervisor throws its error and calls nothing else. *)
Theorem mount_failure_is_fatal (env : MoltbotEnv) (s s1 : S) (e : JsError) :
  hp_ensureRcloneConfig env s = (inl e, s1) ->
  ensureMoltbotGateway env s = (Thrown e, s1, [EvEnsureRcloneConfig]).
Proof.
  intros Hrclone. unfold ensureMoltbotGateway.
  apply bind_thrown, await_rejected, Hrclone.
Qed.

(** The outcome of the fresh start, from the replies of the sandbox. *)
Lemma fresh_start_outcome (env : MoltbotEnv) (s : S) :
  result (startNewGateway env s)
  = launchOutcome env (final (preseedOpenClawConfig env s)).
Proof.
  rewrite fresh_start_result. unfold launchOutcome, passedEnv.
  destruct (sb_startProcess gatewayCommand _ _) as [[e|process] s1];
    [reflexivity|].
  rewrite awaitReady_result.
  destruct (sb_waitForPort process _ _ _ s1) as [[e|[]] s2]; [reflexivity|].
  destruct (sb_getLogs process s2) as [[e|logs] s3]; reflexivity.
Qed.

(** With no candidate (none listed, or the listing rejected), the outcome
    of the supervisor is decided by the launch, the probe of the launched
    process and the reading of its logs, in that order: the first rejection
    is thrown, and the launched handle is returned when there is none. *)
Theorem no_candidate_outcome (env : MoltbotEnv) (s s1 s2 : S)
    (found : list Event) :
  hp_ensureRcloneConfig env s = (inr tt, s1) ->
  findExistingMoltbotProcess s1 = (Returned None, s2, found) ->
  result (ensureMoltbotGateway env s)
  = launchOutcome env (final (preseedOpenClawConfig env s2)).
Proof.
  intros Hrclone Hfind.
  rewrite (ensure_no_candidate env s s1 s2 found Hrclone Hfind).
  unfold result at 1. cbn [fst]. apply fresh_start_outcome.
Qed.

(** On the restart path the outcome is decided in the same way from the
    state the kill leaves, whether the kill is rejected or not. *)
Theorem restart_outcome (env : MoltbotEnv) (s s1 s2 s3 : S)
    (processes : list Process) (existing : Process) (e : JsError) :
  hp_ensureRcloneConfig env s = (inr tt, s1) ->
  sb_listProcesses s1 = (inr processes, s2) ->
  findGateway processes = Some existing ->
  sb_waitForPort existing MOLTBOT_PORT "tcp" STARTUP_TIMEOUT_MS s2 = (inl e, s3) ->
  result (ensureMoltbotGateway env s)
  = launchOutcome env
      (final (preseedOpenClawConfig env (snd (sb_kill existing s3)))).
Proof.
  intros Hrclone Hlist Hfind Hport.
  rewrite (ensure_restart env s s1 s2 s3 processes existing e
             Hrclone Hlist Hfind Hport).
  unfold result at 1. cbn [fst]. apply fresh_start_outcome.
Qed.

(** A rejected launch is thrown at once: after the seeding the run ends
    with the [startProcess] and the log of its failure, and no probe is
    issued. *)
Theorem launch_failure_is_fatal (env : MoltbotEnv) (s s1 s2 s3 : S)
    (found : list Event) (startErr : JsError) :
  hp_ensureRcloneConfig env s = (inr tt, s1) ->
  findExistingMoltbotProcess s1 = (Returned None, s2, found) ->
  sb_startProcess gatewayCommand (passedEnv env)
                  (final (preseedOpenClawConfig env s2)) = (inl startErr, s3) ->
  ensureMoltbotGateway env s
  = (Thrown startErr, s3,
     (EvEnsureRcloneConfig :: found
      ++ EvLog "Starting new OpenClaw gateway..."
      :: trace (preseedOpenClawConfig env s2)
      ++ [EvLog "Starting process with command:";
          EvLog "Environment vars being passed:";
          EvStartProcess gatewayCommand (passedEnv env);
          EvLogError "Failed to start process:"])%list).
Proof.
  intros Hrclone Hfind Hstart.
  rewrite (ensure_no_candidate env s s1 s2 found Hrclone Hfind).
  unfold startNewGateway, console_log.
  rewrite emit_then.
  rewrite (bind_returned _ _ s2 tt (final (preseedOpenClawConfig env s2))
             (trace (preseedOpenClawConfig env s2)))
    by (rewrite <- (preseed_returns env s2); apply run_eta).
  rewrite !emit_then.
  assert (Hlaunch : launch (buildEnvVars env)
                      (final (preseedOpenClawConfig env s2))
                    = (Thrown startErr, s3,
                       [EvStartProcess gatewayCommand (passedEnv env);
                        EvLogError "Failed to start process:"])).
  { rewrite launch_run. cbv zeta. fold (passedEnv env). now rewrite Hstart. }
  rewrite (bind_thrown _ _ _ _ _ _ Hlaunch).
  unfold result, final, trace. cbn [fst snd]. reflexivity.
Qed.
End Outcomes.

Lemma discovery_never_throws_witness :
  @findExistingMoltbotProcess Script scripted_sandbox
    (mkScript [] [inl (Error "listing unavailable")] [] [] [] [] [])
  = (Returned None, mkScript [] [] [] [] [] [] [],
     [EvListProcesses; EvLog "Could not list processes:"]).
Proof.
  exact (proj2 (discovery_never_throws (sb := scripted_sandbox)
                  (mkScript [] [inl (Error "listing unavailable")] [] [] [] [] []))
               (Error "listing unavailable") (mkScript [] [] [] [] [] [] [])
               eq_refl).
Defined.

Lemma mount_failure_is_fatal_witness :
  scripted_ensure anthropic_only mount_fails_script
  = (Thrown (Error "rclone not configured"),
     mkScript [] [inr [old_gateway]] [ok] [] [] [] [],
     [EvEnsureRcloneConfig]).
Proof.
  exact (mount_failure_is_fatal (sb := scripted_sandbox)
           (hp := scripted_helpers) (imp := sample_imports)
           anthropic_only mount_fails_script
           (mkScript [] [inr [old_gateway]] [ok] [] [] [] [])
           (Error "rclone not configured") eq_refl).
Defined.

Lemma no_candidate_outcome_witness :
  result (scripted_ensure no_keys listing_fails_script) = Returned new_gateway.
Proof.
  exact (no_candidate_outcome (sb := scripted_sandbox)
           (hp := scripted_helpers) (imp := sample_imports)
           no_keys listing_fails_script
           (mkScript [] [inl (Error "listing unavailable")] [ok] []
                     [inr new_gateway] [] [inr (mkLogs "started" EmptyString)])
           (mkScript [] [] [ok] [] [inr new_gateway] []
                     [inr (mkLogs "started" EmptyString)])
           [EvListProcesses; EvLog "Could not list processes:"]
           eq_refl eq_refl).
Defined.

Lemma restart_outcome_witness :
  result (scripted_ensure no_keys restart_ready_script) = Returned new_gateway.
Proof.
  exact (restart_outcome (sb := scripted_sandbox)
           (hp := scripted_helpers) (imp := sample_imports)
           no_keys restart_ready_script
           (mkScript [] [inr [old_gateway]]
                     [inl (Error "timed out waiting for port"); ok]
                     [inl (Error "no such process")]
                     [inr new_gateway] [] [inr (mkLogs "started" EmptyString)])
           (mkScript [] []
                     [inl (Error "timed out waiting for port"); ok]
                     [inl (Error "no such process")]
                     [inr new_gateway] [] [inr (mkLogs "started" EmptyString)])
           (mkScript [] [] [ok] [inl (Error "no such process")]
                     [inr new_gateway] [] [inr (mkLogs "started" EmptyString)])
           [old_gateway] old_gateway (Error "timed out waiting for port")
           eq_refl eq_refl eq_refl eq_refl).
Defined.

Lemma launch_failure_is_fatal_witness :
  scripted_ensure no_keys launch_fails_script
  = (Thrown (Error "cannot start"), mkScript [] [] [ok] [] [] [] [],
     [EvEnsureRcloneConfig; EvListProcesses;
      EvLog "Starting new OpenClaw gateway...";
      EvLog "[Config] Pre-seeding openclaw.json...";
      EvLog "[Config] No provider key found, skipping pre-seed";
      EvLog "Starting process with command:";
      EvLog "Environment vars being passed:";
      EvStartProcess "/usr/local/bin/start-openclaw.sh" None;
      EvLogError "Failed to start process:"]).
Proof.
  exact (launch_failure_is_fatal (sb := scripted_sandbox)
           (hp := scripted_helpers) (imp := sample_imports)
           no_keys launch_fails_script
           (mkScript [] [inr [devices_cli]] [ok] [] [inl (Error "cannot start")] [] [])
           (mkScript [] [] [ok] [] [inl (Error "cannot start")] [] [])
           (mkScript [] [] [ok] [] [] [] [])
           [EvListProcesses] (Error "cannot start")
           eq_refl eq_refl eq_refl).
Defined.

(** ** Bounds on the calls of a run *)

Section Bounds.
Context {S : Type}.
Variable f : Event -> bool.

Lemma at_most_ret {A} (a : A) : at_most f 0 (@ret S A a).
Proof. intros s. apply Nat.le_refl. Qed.

Lemma at_most_throw {A} (e : JsError) : at_most f 0 (@throw S A e).
Proof. intros s. apply Nat.le_refl. Qed.

Lemma at_most_emit_other (ev : Event) :
  f ev = false -> at_most f 0 (@emit S ev).
Proof.
  intros Hev s. unfold emit, trace. cbn [snd].
  rewrite count_cons, count_nil, Hev. lia.
Qed.

Lemma at_most_emit_one (ev : Event) : at_most f 1 (@emit S ev).
Proof.
  intros s. unfold emit, trace. cbn [snd].
  rewrite count_cons, count_nil. destruct (f ev); lia.
Qed.

Lemma at_most_await_other {A} (ev : Event) (call : S -> Reply A * S) :
  f ev = false -> at_most f 0 (await ev call).
Proof.
  intros Hev s. unfold await, trace.
  destruct (call s) as [[e|a] s1]; cbn [snd];
    rewrite count_cons, count_nil, Hev; lia.
Qed.

Lemma at_most_await_one {A} (ev : Event) (call : S -> Reply A * S) :
  at_most f 1 (await ev call).
Proof.
  intros s. unfold await, trace.
  destruct (call s) as [[e|a] s1]; cbn [snd];
    rewrite count_cons, count_nil; destruct (f ev); lia.
Qed.

Lemma at_most_bind {A B} (a b : nat) (m : M S A) (k : A -> M S B) :
  at_most f a m -> (forall x, at_most f b (k x)) -> at_most f (a + b) (bind m k).
Proof.
  intros Hm Hk s. rewrite trace_bind, count_app.
  specialize (Hm s). destruct (result (m s)) as [x|e].
  - specialize (Hk x (final (m s))). lia.
  - rewrite count_nil. lia.
Qed.

Lemma at_most_try_catch {A} (a b : nat) (m : M S A) (handler : JsError -> M S A) :
  at_most f a m -> (forall e, at_most f b (handler e)) ->
  at_most f (a + b) (try_catch m handler).
Proof.
  intros Hm Hh s. specialize (Hm s). unfold try_catch, trace in *.
  destruct (m s) as [[[x|e] s1] t1]; cbn [snd] in *; [lia|].
  specialize (Hh e s1). unfold trace in Hh.
  destruct (handler e s1) as [[r s2] t2]; cbn [snd] in *.
  rewrite count_app. lia.
Qed.

Lemma at_most_if {A} (a b : nat) (c : bool) (m1 m2 : M S A) :
  at_most f a m1 -> at_most f b m2 ->
  at_most f (Nat.max a b) (if c then m1 else m2).
Proof.
  intros H1 H2 s. destruct c; [specialize (H1 s)|specialize (H2 s)]; lia.
Qed.

Lemma at_most_option {A B} (a b : nat) (o : option B)
    (k : B -> M S A) (m : M S A) :
  (forall x, at_most f a (k x)) -> at_most f b m ->
  at_most f (Nat.max a b) (match o with Some x => k x | None => m end).
Proof.
  intros H1 H2 s. destruct o as [x|]; [specialize (H1 x s)|specialize (H2 s)]; lia.
Qed.

Lemma at_most_weaken {A} (a b : nat) (m : M S A) :
  at_most f a m -> (a <= b)%nat -> at_most f b m.
Proof. intros Hm Hab s. specialize (Hm s). lia. Qed.
End Bounds.

(** Adds up the bounds along the binds, the handlers and the branches; an
    event counts when it is of the kind that is counted. *)
Ltac at_most_rules :=
  repeat first
    [ apply at_most_ret
    | apply at_most_throw
    | apply at_most_emit_other; reflexivity
    | apply at_most_emit_one
    | apply at_most_await_other; reflexivity
    | apply at_most_await_one
    | eapply at_most_bind; [|intros ?]
    | eapply at_most_try_catch; [|intros ?]
    | eapply at_most_if
    | eapply at_most_option; [intros ?|]
    | match goal with
      | |- at_most _ _ (let (_, _) := ?p in _) => destruct p
      end ].

(** Bounds a run of [ensureMoltbotGateway] for the kind of event of the
    goal. *)
Ltac bound_run :=
  eapply at_most_weaken;
  [ unfold ensureMoltbotGateway, ensureRcloneConfig, findExistingMoltbotProcess,
      reuseExisting, startNewGateway, preseedOpenClawConfig, launch, awaitReady,
      listProcesses, startProcess, waitForPort, waitForProcess, kill, getLogs,
      console_log, console_error;
    at_most_rules
  | cbn; lia ].

Section CallBounds.
Context {S : Type} {sb : Sandbox S} {hp : Helpers S} {imp : Imports}.

(** No step is retried: a run lists the processes at most once, kills at
    most once, starts the seeding at most once, launches the gateway at most
    once, starts at most two processes (the write of the config and the
    gateway) and probes at most twice (the existing process and the launched
    one). *)
Theorem no_retry (env : MoltbotEnv) (s : S) :
  (count is_listing (trace (ensureMoltbotGateway env s)) <= 1)%nat /\
  (count is_kill (trace (ensureMoltbotGateway env s)) <= 1)%nat /\
  (count is_seeding (trace (ensureMoltbotGateway env s)) <= 1)%nat /\
  (count is_launch (trace (ensureMoltbotGateway env s)) <= 1)%nat /\
  (count is_startProcess (trace (ensureMoltbotGateway env s)) <= 2)%nat /\
  (count is_probe (trace (ensureMoltbotGateway env s)) <= 2)%nat.
Proof.
  assert (Hlisting : at_most is_listing 1 (ensureMoltbotGateway env)) by bound_run.
  assert (Hkill : at_most is_kill 1 (ensureMoltbotGateway env)) by bound_run.
  assert (Hseeding : at_most is_seeding 1 (ensureMoltbotGateway env)) by bound_run.
  assert (Hlaunch : at_most is_launch 1 (ensureMoltbotGateway env)) by bound_run.
  assert (Hstart : at_most is_startProcess 2 (ensureMoltbotGateway env)) by bound_run.
  assert (Hprobe : at_most is_probe 2 (ensureMoltbotGateway env)) by bound_run.
  repeat split; [apply Hlisting|apply Hkill|apply Hseeding|apply Hlaunch
                 |apply Hstart|apply Hprobe].
Qed.
End CallBounds.

(** ** What a run kills and what it returns *)

Lemma count_zero_in (f : Event -> bool) (t : list Event) (ev : Event) :
  (count f t <= 0)%nat -> In ev t -> f ev = false.
Proof.
  unfold count. induction t as [|x t IH]; simpl; [tauto|].
  destruct (f x) eqn:Hx; simpl; [lia|].
  intros Hc [<-|Hin]; auto.
Qed.

Section KillsAndReturns.
Context {S : Type} {sb : Sandbox S} {hp : Helpers S} {imp : Imports}.

Lemma fresh_start_no_kill (env : MoltbotEnv) (s : S) (proc : Process) :
  ~ In (EvKill proc) (trace (startNewGateway env s)).
Proof.
  assert (Hnone : at_most is_kill 0 (startNewGateway env)).
  { eapply at_most_weaken.
    - unfold startNewGateway, preseedOpenClawConfig, launch, awaitReady,
        startProcess, waitForPort, waitForProcess, getLogs,
        console_log, console_error.
      at_most_rules.
    - cbn. lia. }
  intros Hin. apply (count_zero_in is_kill _ _ (Hnone s)) in Hin. discriminate.
Qed.

(** A process is killed only on the restart path: a kill in the trace of a
    run is on the first process of the listing that the classifier accepts,
    and the probe of that process with the full timeout was rejected. *)
Theorem kill_only_failed_candidate (env : MoltbotEnv) (s : S) (proc : Process) :
  In (EvKill proc) (trace (ensureMoltbotGateway env s)) ->
  exists s1 s2 s3 processes e,
    hp_ensureRcloneConfig env s = (inr tt, s1) /\
    sb_listProcesses s1 = (inr processes, s2) /\
    first_such spec_gateway processes proc /\
    sb_waitForPort proc MOLTBOT_PORT "tcp" STARTUP_TIMEOUT_MS s2 = (inl e, s3).
Proof.
  destruct (hp_ensureRcloneConfig env s) as [[e|[]] s1] eqn:Hrclone.
  { rewrite (ensure_mount_rejected env s s1 e Hrclone).
    simpl. intros [Hin|[]]. discriminate. }
  destruct (findExisting_cases s1) as
    [(processes & s2 & Hlist & Hfind)|(e & s2 & Hlist & Hfind)].
  - destruct (findGateway processes) as [existing|] eqn:Hgw.
    + destruct (sb_waitForPort existing MOLTBOT_PORT "tcp" STARTUP_TIMEOUT_MS s2)
        as [[e|[]] s3] eqn:Hport.
      * rewrite (ensure_restart env s s1 s2 s3 processes existing e
                   Hrclone Hlist Hgw Hport).
        unfold trace at 1. cbn [snd]. intros Hin.
        apply in_app_or in Hin as [Hin|Hin].
        -- simpl in Hin.
           destruct Hin as [H|[H|[H|[H|[H|[H|[H|[]]]]]]]]; try discriminate.
           injection H as <-.
           exists s1, s2, s3, processes, e.
           repeat split; auto. now apply findGateway_some.
        -- apply in_app_or in Hin as [Hin|Hin].
           ++ destruct (fst (sb_kill existing s3)); simpl in Hin;
                [destruct Hin as [H|[]]; discriminate|destruct Hin].
           ++ now apply fresh_start_no_kill in Hin.
      * rewrite (ensure_reuse env s s1 s2 s3 processes existing
                   Hrclone Hlist Hgw Hport).
        simpl. intros Hin.
        destruct Hin as [H|[H|[H|[H|[H|[H|[]]]]]]]; discriminate.
    + rewrite (ensure_no_candidate env s s1 s2 _ Hrclone Hfind).
      unfold trace at 1. cbn [snd]. simpl. intros [H|[H|Hin]]; try discriminate.
      now apply fresh_start_no_kill in Hin.
  - rewrite (ensure_no_candidate env s s1 s2 _ Hrclone Hfind).
    unfold trace at 1. cbn [snd]. simpl.
    intros [H|[H|[H|Hin]]]; try discriminate.
    now apply fresh_start_no_kill in Hin.
Qed.
End KillsAndReturns.

Lemma kill_only_failed_candidate_witness :
  exists s1 s2 s3 processes e,
    @hp_ensureRcloneConfig Script scripted_helpers no_keys restart_ready_script
    = (inr tt, s1) /\
    @sb_listProcesses Script scripted_sandbox s1 = (inr processes, s2) /\
    first_such spec_gateway processes old_gateway /\
    @sb_waitForPort Script scripted_sandbox old_gateway 18789 "tcp" 180000 s2
    = (inl e, s3).
Proof.
  apply (kill_only_failed_candidate (sb := scripted_sandbox)
           (hp := scripted_helpers) (imp := sample_imports)
           no_keys restart_ready_script old_gateway).
  vm_compute. tauto.
Defined.

Section Returned.
Context {S : Type} {sb : Sandbox S} {hp : Helpers S} {imp : Imports}.

Lemma result_run {A} (r : Outcome A) (s : S) (t : list Event) :
  result (r, s, t) = r.
Proof. reflexivity. Qed.

Lemma final_run {A} (r : Outcome A) (s : S) (t : list Event) :
  final (r, s, t) = s.
Proof. reflexivity. Qed.

Lemma trace_run {A} (r : Outcome A) (s : S) (t : list Event) :
  trace (r, s, t) = t.
Proof. reflexivity. Qed.

Lemma awaitReady_returned (process : Process) (s : S) :
  result (awaitReady process s) = Returned tt ->
  exists after,
    trace (awaitReady process s)
    = EvLog "[Gateway] Waiting for OpenClaw gateway to be ready on port"
      :: EvWaitForPort process MOLTBOT_PORT "tcp" STARTUP_TIMEOUT_MS :: after /\
    Forall passive after.
Proof.
  unfold awaitReady, waitForPort, getLogs, try_catch, bind, await,
    console_log, console_error, emit, ret, throw.
  destruct (sb_waitForPort _ _ _ _ s) as [[e|[]] s1].
  - destruct (sb_getLogs process s1) as [[e'|logs] s2]; discriminate.
  - destruct (sb_getLogs process s1) as [[e|logs] s2].
    + destruct (sb_getLogs process s2) as [[e'|logs] s3]; discriminate.
    + intros _.
      destruct (truthy (stdout logs)), (truthy (stderr logs));
        (eexists; split; [reflexivity|repeat constructor]).
Qed.

Lemma fresh_start_returned (env : MoltbotEnv) (s : S) (process : Process) :
  result (startNewGateway env s) = Returned process ->
  exists before after,
    trace (startNewGateway env s)
    = (before
       ++ EvWaitForPort process MOLTBOT_PORT "tcp" STARTUP_TIMEOUT_MS :: after)%list /\
    Forall passive after.
Proof.
  rewrite fresh_start_result. cbv zeta.
  unfold startNewGateway, console_log.
  rewrite trace_emit_then, trace_bind, preseed_returns.
  rewrite !trace_emit_then, trace_bind, launch_run. cbv zeta.
  destruct (sb_startProcess gatewayCommand _ _) as [[e|launched] s1];
    [discriminate|].
  rewrite result_run, final_run, trace_run, trace_bind.
  destruct (result (awaitReady launched s1)) as [[]|e] eqn:Hready;
    [|discriminate].
  intros [= <-].
  destruct (awaitReady_returned launched s1 Hready) as (after & -> & Hafter).
  rewrite trace_emit_then.
  exists (EvLog "Starting new OpenClaw gateway..."
          :: trace (preseedOpenClawConfig env s)
          ++ [EvLog "Starting process with command:";
              EvLog "Environment vars being passed:";
              EvStartProcess gatewayCommand
                (if Nat.ltb 0 (List.length (buildEnvVars env))
                 then Some (buildEnvVars env) else None);
              EvLog "Process started with id:";
              EvLog "[Gateway] Waiting for OpenClaw gateway to be ready on port"])%list,
         (after ++ [EvLog "[Gateway] Verifying gateway health..."])%list.
  split.
  - cbn [app]. rewrite <- app_assoc. reflexivity.
  - apply Forall_app. split; [exact Hafter|repeat constructor].
Qed.

(** A handle is returned only after its own probe: in a run that returns a
    handle, the trace holds the probe of that handle with the port and the
    full timeout of the configuration, and after it no kill, no
    [startProcess] and no other probe. *)
Theorem returned_handle_was_probed (env : MoltbotEnv) (s : S) (process : Process) :
  result (ensureMoltbotGateway env s) = Returned process ->
  exists before after,
    trace (ensureMoltbotGateway env s)
    = (before
       ++ EvWaitForPort process MOLTBOT_PORT "tcp" STARTUP_TIMEOUT_MS :: after)%list /\
    Forall passive after.
Proof.
  destruct (hp_ensureRcloneConfig env s) as [[e|[]] s1] eqn:Hrclone.
  { rewrite (ensure_mount_rejected env s s1 e Hrclone). discriminate. }
  assert (Hfresh : forall pre s',
             ensureMoltbotGateway env s
             = (result (startNewGateway env s'), final (startNewGateway env s'),
                (pre ++ trace (startNewGateway env s'))%list) ->
             result (ensureMoltbotGateway env s) = Returned process ->
             exists before after,
               trace (ensureMoltbotGateway env s)
               = (before
                  ++ EvWaitForPort process MOLTBOT_PORT "tcp" STARTUP_TIMEOUT_MS
                  :: after)%list /\
               Forall passive after).
  { intros pre s' Hrun. rewrite Hrun. unfold result at 1, trace at 1.
    cbn [fst snd]. intros Hret.
    destruct (fresh_start_returned env s' process Hret)
      as (before & after & -> & Hafter).
    exists (pre ++ before)%list, after. now rewrite app_assoc. }
  destruct (findExisting_cases s1) as
    [(processes & s2 & Hlist & Hfind)|(e & s2 & Hlist & Hfind)].
  - destruct (findGateway processes) as [existing|] eqn:Hgw.
    + destruct (sb_waitForPort existing MOLTBOT_PORT "tcp" STARTUP_TIMEOUT_MS s2)
        as [[e|[]] s3] eqn:Hport.
      * pose proof (ensure_restart env s s1 s2 s3 processes existing e
                      Hrclone Hlist Hgw Hport) as Hrun.
        cbv zeta in Hrun. rewrite app_assoc in Hrun.
        exact (Hfresh _ _ Hrun).
      * rewrite (ensure_reuse env s s1 s2 s3 processes existing
                   Hrclone Hlist Hgw Hport).
        intros [= <-].
        exists [EvEnsureRcloneConfig; EvListProcesses;
                EvLog "Found existing gateway process:";
                EvLog "Waiting for gateway on port"],
               [EvLog "Gateway is reachable"].
        split; [reflexivity|repeat constructor].
    + apply (Hfresh [EvEnsureRcloneConfig; EvListProcesses] s2).
      apply (ensure_no_candidate env s s1 s2 _ Hrclone Hfind).
  - apply (Hfresh [EvEnsureRcloneConfig; EvListProcesses;
                   EvLog "Could not list processes:"] s2).
    apply (ensure_no_candidate env s s1 s2 _ Hrclone Hfind).
Qed.
End Returned.

Lemma returned_handle_was_probed_witness :
  exists before after,
    trace (scripted_ensure no_keys fresh_ready_script)
    = (before ++ EvWaitForPort new_gateway 18789 "tcp" 180000 :: after)%list /\
    Forall passive after.
Proof.
  apply (returned_handle_was_probed (sb := scripted_sandbox)
           (hp := scripted_helpers) (imp := sample_imports)
           no_keys fresh_ready_script new_gateway).
  vm_compute. reflexivity.
Defined.

(** ** The processes a run starts *)

Section Started.
Context {S : Type} {sb : Sandbox S} {hp : Helpers S} {imp : Imports}.

Lemma preseed_started (env : MoltbotEnv) :
  emits (started_by_module env) (preseedOpenClawConfig env).
Proof.
  unfold preseedOpenClawConfig, console_log.
  apply emits_bind; [apply emits_emit; exact I|intros _].
  destruct (selectProvider env) as [[providerConfig defaultModel]|] eqn:Hsel;
    [|apply emits_emit; exact I].
  unfold startProcess, waitForProcess, getLogs, console_log, console_error.
  emits_rules; try exact I; try reflexivity.
  right. exists providerConfig, defaultModel. auto.
Qed.

(** A run starts two kinds of process only: the start script, with the
    environment assembled by [buildEnvVars] (or none when that is empty),
    and the write of the config selected from the credentials, without
    environment; it waits for a process to end only with 5000 ms. *)
Theorem started_processes (env : MoltbotEnv) (s : S) :
  Forall (started_by_module env) (trace (ensureMoltbotGateway env s)).
Proof.
  apply emits_at. unfold ensureMoltbotGateway.
  apply emits_bind; [apply emits_await; exact I|intros _].
  apply emits_bind; [|intros existingProcess].
  { unfold findExistingMoltbotProcess, listProcesses, console_log.
    emits_rules; exact I. }
  apply emits_bind; [|intros [existing|]].
  - destruct existingProcess as [existing|]; [|apply emits_ret].
    unfold reuseExisting, waitForPort, kill, console_log.
    emits_rules; exact I.
  - apply emits_ret.
  - unfold startNewGateway.
    apply emits_bind; [apply emits_emit; exact I|intros _].
    apply emits_bind; [apply preseed_started|intros _].
    apply emits_bind; [apply emits_emit; exact I|intros _].
    apply emits_bind; [apply emits_emit; exact I|intros _].
    apply emits_bind; [|intros process].
    + unfold launch, startProcess, console_log, console_error.
      emits_rules; try exact I. left. split; reflexivity.
    + apply emits_bind; [|intros _; emits_rules; exact I].
      apply awaitReady_emits; intros; exact I.
Qed.
End Started.

(** ** The classifier and the launch command *)

(** The classifier finds what the supervisor launches: when the listing
    holds a process whose command is the launch command, in status starting
    or running, the classifier returns a process, that one or an accepted
    one listed before it. *)
Theorem launched_gateway_is_discoverable
    (processes : list Process) (launched : Process) :
  In launched processes ->
  command launched = gatewayCommand ->
  live_status launched ->
  exists found before after,
    findGateway processes = Some found /\
    processes = (before ++ found :: after)%list /\
    (found = launched \/ In launched after).
Proof.
  intros Hin Hcmd Hlive.
  assert (Hacc : accepted launched = true).
  { unfold accepted, isGatewayProcess, isCliCommand. rewrite Hcmd.
    destruct Hlive as [-> | ->]; reflexivity. }
  induction processes as [|q rest IH]; [destruct Hin|].
  rewrite findGateway_step. destruct (accepted q) eqn:Hq.
  - exists q, [], rest. split; [reflexivity|]. split; [reflexivity|].
    destruct Hin as [->|Hin]; auto.
  - destruct Hin as [->|Hin]; [congruence|].
    destruct (IH Hin) as (found & before & after & Hf & -> & Hor).
    exists found, (q :: before), after. auto.
Qed.

Lemma launched_gateway_is_discoverable_witness :
  exists found before after,
    findGateway [devices_cli; new_gateway] = Some found /\
    [devices_cli; new_gateway] = (before ++ found :: after)%list /\
    (found = new_gateway \/ In new_gateway after).
Proof.
  apply (launched_gateway_is_discoverable [devices_cli; new_gateway] new_gateway).
  - simpl. tauto.
  - reflexivity.
  - left. reflexivity.
Defined.

(** ** The provider section *)

Lemma key_some (v : option string) (k : string) :
  key v = Some k -> v = Some k /\ truthy k = true.
Proof.
  destruct v as [s|]; simpl; [|discriminate].
  destruct (truthy s) eqn:Hs; [|discriminate].
  intros [= <-]. auto.
Qed.

Lemma key_none_absent (v : option string) : key v = None -> present v = false.
Proof.
  destruct v as [s|]; simpl; [|reflexivity].
  destruct (truthy s); [discriminate|reflexivity].
Qed.

(** The selected section is usable as it stands: it carries, as [apiKey],
    the key of its own provider, which is not empty and is the first
    present one in the order Gemini, Anthropic, OpenAI, and the default
    model is the name of the provider, a slash and the identifier of a model
    that the section lists. *)
Theorem default_model_in_catalog (env : MoltbotEnv)
    (providerConfig : list (string * Json)) (defaultModel : string) :
  selectProvider env = Some (providerConfig, defaultModel) ->
  exists name section apiKey models entry mid,
    providerConfig = [(name, JObj section)] /\
    field "apiKey" section = Some (JStr apiKey) /\
    truthy apiKey = true /\
    (name = "google-gemini" /\ GEMINI_API_KEY env = Some apiKey \/
     name = "anthropic" /\ ANTHROPIC_API_KEY env = Some apiKey /\
       present (GEMINI_API_KEY env) = false \/
     name = "openai" /\ OPENAI_API_KEY env = Some apiKey /\
       present (GEMINI_API_KEY env) = false /\
       present (ANTHROPIC_API_KEY env) = false) /\
    field "models" section = Some (JArr models) /\
    In (JObj entry) models /\
    field "id" entry = Some (JStr mid) /\
    defaultModel = name ++ "/" ++ mid.
Proof.
  unfold selectProvider.
  destruct (key (GEMINI_API_KEY env)) as [k|] eqn:Hg;
    [|destruct (key (ANTHROPIC_API_KEY env)) as [k|] eqn:Ha;
      [|destruct (key (OPENAI_API_KEY env)) as [k|] eqn:Ho; [|discriminate]]];
    intros [= <- <-].
  - apply key_some in Hg as [Hg Hk].
    eexists _, _, k, _, _, "gemini-2.0-flash".
    split; [reflexivity|]. split; [reflexivity|]. split; [exact Hk|].
    split; [left; auto|]. split; [reflexivity|].
    split; [left; reflexivity|]. split; reflexivity.
  - apply key_some in Ha as [Ha Hk]. apply key_none_absent in Hg.
    eexists _, _, k, _, _, "claude-sonnet-4-20250514".
    split; [reflexivity|]. split; [reflexivity|]. split; [exact Hk|].
    split; [right; left; auto|]. split; [reflexivity|].
    split; [left; reflexivity|]. split; reflexivity.
  - apply key_some in Ho as [Ho Hk]. apply key_none_absent in Hg, Ha.
    eexists _, _, k, _, _, "gpt-4o".
    split; [reflexivity|]. split; [reflexivity|]. split; [exact Hk|].
    split; [right; right; auto|]. split; [reflexivity|].
    split; [left; reflexivity|]. split; reflexivity.
Qed.

Lemma default_model_in_catalog_witness :
  exists name section apiKey models entry mid,
    [("anthropic",
      JObj [("api", JStr "anthropic-messages");
            ("apiKey", JStr "sk-ant");
            ("baseUrl", JStr "https://api.anthropic.com");
            ("models",
             JArr [model "claude-sonnet-4-20250514" "Claude Sonnet" 200000 8192])])]
    = [(name, JObj section)] /\
    field "apiKey" section = Some (JStr apiKey) /\
    truthy apiKey = true /\
    (name = "google-gemini" /\ None = Some apiKey \/
     name = "anthropic" /\ Some "sk-ant" = Some apiKey /\
       present (@None string) = false \/
     name = "openai" /\ None = Some apiKey /\
       present (@None string) = false /\
       present (Some "sk-ant") = false) /\
    field "models" section = Some (JArr models) /\
    In (JObj entry) models /\
    field "id" entry = Some (JStr mid) /\
    "anthropic/claude-sonnet-4-20250514" = name ++ "/" ++ mid.
Proof.
  exact (default_model_in_catalog anthropic_only _ _ eq_refl).
Defined.

(** The base URL override belongs to the Anthropic provider: it is the
    base URL of the section when Anthropic is selected and the override is
    not empty, the default URL stands otherwise, and with another provider
    selected, or none, the override changes nothing. *)
Theorem base_url_override (env : MoltbotEnv) (url : option string) :
  (present (GEMINI_API_KEY env) = false ->
   present (ANTHROPIC_API_KEY env) = true ->
   exists section,
     selectProvider (with_base_url env url)
     = Some ([("anthropic", JObj section)], "anthropic/claude-sonnet-4-20250514") /\
     field "baseUrl" section
     = Some (JStr (match url with
                   | Some u => if truthy u then u else "https://api.anthropic.com"
                   | None => "https://api.anthropic.com"
                   end))) /\
  (present (GEMINI_API_KEY env) = true \/
   present (ANTHROPIC_API_KEY env) = false ->
   selectProvider (with_base_url env url) = selectProvider env).
Proof.
  unfold selectProvider, with_base_url. simpl. split.
  - intros Hg Ha. apply key_absent in Hg as ->.
    apply key_present in Ha as (k & _ & ->).
    eexists. split; [reflexivity|]. simpl.
    destruct url as [u|]; simpl; [destruct (truthy u)|]; reflexivity.
  - intros [Hg|Ha].
    + apply key_present in Hg as (k & _ & ->). reflexivity.
    + apply key_absent in Ha as ->. reflexivity.
Qed.

Lemma base_url_override_witness :
  exists section,
    selectProvider (with_base_url anthropic_only (Some "https://proxy.example/v1"))
    = Some ([("anthropic", JObj section)], "anthropic/claude-sonnet-4-20250514") /\
    field "baseUrl" section = Some (JStr "https://proxy.example/v1").
Proof.
  exact (proj1 (base_url_override anthropic_only (Some "https://proxy.example/v1"))
               eq_refl eq_refl).
Defined.

(** ** The escaping loses nothing *)

Lemma escape_injective (a : string) :
  forall b, escape a = escape b -> a = b.
Proof.
  unfold escape.
  induction a as [|x a IH]; intros [|y b]; cbn [replace_all].
  - reflexivity.
  - destruct (Ascii.eqb y squote); discriminate.
  - destruct (Ascii.eqb x squote); discriminate.
  - destruct (Ascii.eqb x squote) eqn:Hx, (Ascii.eqb y squote) eqn:Hy.
    + apply Ascii.eqb_eq in Hx, Hy. subst x y.
      intros [= E]. f_equal. now apply IH.
    + apply Ascii.eqb_eq in Hx. subst x. intros [= E _].
      rewrite <- E, Ascii.eqb_refl in Hy. discriminate.
    + apply Ascii.eqb_eq in Hy. subst y. intros [= E _].
      rewrite E, Ascii.eqb_refl in Hx. discriminate.
    + intros [= -> E]. f_equal. now apply IH.
Qed.

Lemma append_inv_head (p a b : string) : p ++ a = p ++ b -> a = b.
Proof. induction p as [|c p IH]; simpl; [auto|]. intros [= E]. auto. Qed.

Lemma append_inv_last (c : ascii) (a : string) :
  forall b, a ++ str1 c = b ++ str1 c -> a = b.
Proof.
  induction a as [|x a IH]; intros [|y b]; simpl.
  - reflexivity.
  - intros [= _ E]. destruct b; discriminate.
  - intros [= _ E]. destruct a; discriminate.
  - intros [= -> E]. f_equal. now apply IH.
Qed.

(** Two serialized configurations with the same write command are the same:
    the escaping of the single quotes loses nothing. *)
Theorem writeCmd_injective (a b : string) :
  writeCmd a = writeCmd b -> a = b.
Proof.
  unfold writeCmd. intros E.
  apply append_inv_head in E. apply append_inv_head in E.
  apply append_inv_head in E.
  apply (append_inv_last "'"%char) in E.
  now apply escape_injective.
Qed.

Lemma writeCmd_injective_witness :
  stringify (JObj [("k", JStr "it's")]) = stringify (JObj [("k", JStr "it's")]).
Proof.
  apply (writeCmd_injective _ _). reflexivity.
Defined.

(** ** The restart path, on a concrete run *)

Lemma restart_path_effects_witness :
  count is_kill (trace (scripted_ensure no_keys restart_ready_script)) = 1%nat /\
  In (EvKill old_gateway) (trace (scripted_ensure no_keys restart_ready_script)) /\
  count is_seeding (trace (scripted_ensure no_keys restart_ready_script)) = 1%nat /\
  count is_launch (trace (scripted_ensure no_keys restart_ready_script)) = 1%nat /\
  exists s5 s6 logs s7,
    @sb_startProcess Script scripted_sandbox gatewayCommand None
      (mkScript [] [] [ok] [] [inr new_gateway] []
                [inr (mkLogs "started" EmptyString)])
    = (inr new_gateway, s5) /\
    @sb_waitForPort Script scripted_sandbox new_gateway 18789 "tcp" 180000 s5
    = (inr tt, s6) /\
    @sb_getLogs Script scripted_sandbox new_gateway s6 = (inr logs, s7).
Proof.
  destruct (restart_path_effects (sb := scripted_sandbox)
              (hp := scripted_helpers) (imp := sample_imports)
              no_keys restart_ready_script
              (mkScript [] (on_list restart_ready_script)
                        (on_port restart_ready_script)
                        (on_kill restart_ready_script)
                        (on_start restart_ready_script)
                        (on_waitProcess restart_ready_script)
                        (on_logs restart_ready_script))
              (mkScript [] []
                        (on_port restart_ready_script)
                        (on_kill restart_ready_script)
                        (on_start restart_ready_script)
                        (on_waitProcess restart_ready_script)
                        (on_logs restart_ready_script))
              (mkScript [] [] [ok]
                        (on_kill restart_ready_script)
                        (on_start restart_ready_script)
                        (on_waitProcess restart_ready_script)
                        (on_logs restart_ready_script))
              [old_gateway] old_gateway (Error "timed out waiting for port")
              eq_refl eq_refl eq_refl eq_refl)
    as (Hkill & Hin & Hseed & Hlaunch & Hret).
  repeat (split; [assumption|]).
  exact (Hret new_gateway eq_refl).
Defined.

(** ** The order of the restart *)

Section RestartOrder.
Context {S : Type} {sb : Sandbox S} {hp : Helpers S} {imp : Imports}.

(** The steps of a fresh start, with the environment of the launch. *)
Lemma fresh_start_steps (env : MoltbotEnv) (s : S) :
  exists seeding after,
    trace (startNewGateway env s)
    = (EvLog "Starting new OpenClaw gateway..." :: seeding_started
       :: seeding
       ++ EvLog "Starting process with command:"
       :: EvLog "Environment vars being passed:"
       :: EvStartProcess gatewayCommand (passedEnv env) :: after)%list /\
    Forall (fun ev => is_kill ev = false /\ is_launch ev = false /\
                      is_seeding ev = false) seeding /\
    Forall quiet after.
Proof.
  destruct (fresh_start_trace env s)
    as (seeding & env' & after & Hseed & Hseeding & Hafter & _).
  unfold startNewGateway, console_log.
  rewrite trace_emit_then, trace_bind, preseed_returns, Hseed.
  rewrite !trace_emit_then, trace_bind, launch_run. cbv zeta.
  fold (passedEnv env).
  destruct (sb_startProcess gatewayCommand (passedEnv env) _)
    as [[e|process] s1]; rewrite result_run, trace_run.
  - exists seeding, [EvLogError "Failed to start process:"].
    split; [reflexivity|]. split; [exact Hseeding|repeat constructor].
  - rewrite final_run. eexists seeding, _.
    split; [reflexivity|]. split; [exact Hseeding|].
    constructor; [repeat split|].
    apply emits_at. apply emits_bind; [|intros _].
    + apply awaitReady_emits; repeat split. assumption.
    + emits_rules. repeat split.
Qed.

(** On the restart path the steps come in one order: the probe of the old
    process, its kill, the seeding of the config, the launch of the gateway;
    nothing is killed or started before the probe, between the kill and the
    seeding, or after the launch. *)
Theorem restart_order (env : MoltbotEnv) (s s1 s2 s3 : S)
    (processes : list Process) (existing : Process) (e : JsError) :
  hp_ensureRcloneConfig env s = (inr tt, s1) ->
  sb_listProcesses s1 = (inr processes, s2) ->
  findGateway processes = Some existing ->
  sb_waitForPort existing MOLTBOT_PORT "tcp" STARTUP_TIMEOUT_MS s2 = (inl e, s3) ->
  exists before between seeding after,
    trace (ensureMoltbotGateway env s)
    = (before
       ++ EvWaitForPort existing MOLTBOT_PORT "tcp" STARTUP_TIMEOUT_MS
       :: EvLog "Existing process not reachable after full timeout, killing and restarting..."
       :: EvKill existing
       :: between
       ++ seeding_started
       :: seeding
       ++ EvLog "Starting process with command:"
       :: EvLog "Environment vars being passed:"
       :: EvStartProcess gatewayCommand (passedEnv env)
       :: after)%list /\
    Forall quiet before /\ Forall quiet between /\
    Forall (fun ev => is_kill ev = false /\ is_launch ev = false /\
                      is_seeding ev = false) seeding /\
    Forall quiet after.
Proof.
  intros Hrclone Hlist Hfind Hport.
  rewrite (ensure_restart env s s1 s2 s3 processes existing e
             Hrclone Hlist Hfind Hport).
  cbv zeta. rewrite trace_run.
  set (s4 := snd (sb_kill existing s3)).
  destruct (fresh_start_steps env s4) as (seeding & after & -> & Hseeding & Hafter).
  exists [EvEnsureRcloneConfig; EvListProcesses;
          EvLog "Found existing gateway process:";
          EvLog "Waiting for gateway on port"],
         (match fst (sb_kill existing s3) with
          | inl _ => [EvLog "Failed to kill process:"]
          | inr _ => []
          end ++ [EvLog "Starting new OpenClaw gateway..."])%list,
         seeding, after.
  split; [|split; [|split; [|split]]]; auto.
  - cbn [app]. rewrite <- app_assoc. reflexivity.
  - repeat constructor.
  - apply Forall_app. split; [|repeat constructor].
    destruct (fst (sb_kill existing s3)); repeat constructor.
Qed.
End RestartOrder.

Lemma restart_order_witness :
  exists before between seeding after,
    trace (scripted_ensure no_keys restart_ready_script)
    = (before
       ++ EvWaitForPort old_gateway 18789 "tcp" 180000
       :: EvLog "Existing process not reachable after full timeout, killing and restarting..."
       :: EvKill old_gateway
       :: between
       ++ seeding_started
       :: seeding
       ++ EvLog "Starting process with command:"
       :: EvLog "Environment vars being passed:"
       :: EvStartProcess gatewayCommand None
       :: after)%list /\
    Forall quiet before /\ Forall quiet between /\
    Forall (fun ev => is_kill ev = false /\ is_launch ev = false /\
                      is_seeding ev = false) seeding /\
    Forall quiet after.
Proof.
  exact (restart_order (sb := scripted_sandbox)
           (hp := scripted_helpers) (imp := sample_imports)
           no_keys restart_ready_script
           (mkScript [] (on_list restart_ready_script)
                     (on_port restart_ready_script)
                     (on_kill restart_ready_script)
                     (on_start restart_ready_script)
                     (on_waitProcess restart_ready_script)
                     (on_logs restart_ready_script))
           (mkScript [] []
                     (on_port restart_ready_script)
                     (on_kill restart_ready_script)
                     (on_start restart_ready_script)
                     (on_waitProcess restart_ready_script)
                     (on_logs restart_ready_script))
           (mkScript [] [] [ok]
                     (on_kill restart_ready_script)
                     (on_start restart_ready_script)
                     (on_waitProcess restart_ready_script)
                     (on_logs restart_ready_script))
           [old_gateway] old_gateway (Error "timed out waiting for port")
           eq_refl eq_refl eq_refl eq_refl).
Defined.

(** ** Reading back what [JSON.stringify] prints *)

(** Induction on a document, with the property on the values inside. *)
Lemma Json_nested_ind (P : Json -> Prop)
    (Hbool : forall b, P (JBool b))
    (Hnum : forall n, P (JNum n))
    (Hstr : forall s, P (JStr s))
    (Harr : forall items, Forall P items -> P (JArr items))
    (Hobj : forall fields, Forall (fun kv => P (snd kv)) fields -> P (JObj fields)) :
  forall j, P j.
Proof.
  fix IH 1. intros [b|n|s|items|fields].
  - apply Hbool.
  - apply Hnum.
  - apply Hstr.
  - apply Harr. induction items as [|x items IHitems]; constructor.
    + apply IH.
    + exact IHitems.
  - apply Hobj. induction fields as [|[k v] fields IHfields]; constructor.
    + apply IH.
    + exact IHfields.
Qed.

Lemma stringify_object (fields : list (string * Json)) :
  stringify (JObj fields)
  = "{" ++ String.concat ","
             (List.map (fun kv => quoteJsonString (fst kv) ++ ":" ++ stringify (snd kv))
                       fields) ++ "}".
Proof.
  cbn [stringify]. do 3 f_equal.
  induction fields as [|[k v] fields IH]; [reflexivity|].
  cbn [List.map fst snd]. now rewrite IH.
Qed.

Lemma toks_object (fields : list (string * Json)) :
  toks (JObj fields)
  = TLBrace
    :: join [TComma]
         (List.map (fun kv => TString (fst kv) :: TColon :: toks (snd kv)) fields)
    ++ [TRBrace].
Proof.
  cbn [toks]. do 3 f_equal.
  induction fields as [|[k v] fields IH]; [reflexivity|].
  cbn [List.map fst snd]. now rewrite IH.
Qed.

(** *** From the tokens to the value *)

Lemma toks_head (j : Json) :
  exists t ts, toks j = t :: ts /\ opens t = true.
Proof.
  destruct j; cbn [toks]; eexists _, _; split; reflexivity.
Qed.

Lemma join_cons2 {A} (sep x y : list A) (ls : list (list A)) :
  join sep (x :: y :: ls) = (x ++ sep ++ join sep (y :: ls))%list.
Proof. reflexivity. Qed.

Lemma app_one {A} (a : A) (l : list A) : ([a] ++ l)%list = a :: l.
Proof. reflexivity. Qed.

Lemma parse_elements_join (items : list Json) :
  Forall reads_back items ->
  items <> [] ->
  forall fuel rest,
    (List.length (join [TComma] (List.map toks items)) + 1 <= fuel)%nat ->
    parse_elements fuel
      (join [TComma] (List.map toks items) ++ TRBracket :: rest)%list
    = Some (items, rest).
Proof.
  induction 1 as [|x items Hx Hall IH]; intros Hne fuel rest Hfuel; [congruence|].
  destruct fuel as [|fuel]; [lia|].
  destruct items as [|y items].
  - cbn [List.map join] in *. cbn [parse_elements].
    rewrite Hx by lia. reflexivity.
  - cbn [List.map] in *. rewrite join_cons2 in *.
    rewrite !length_app in Hfuel. cbn [List.length] in Hfuel.
    rewrite <- !app_assoc. cbn [parse_elements].
    rewrite Hx by lia. cbn [app].
    rewrite IH by (try discriminate; lia). reflexivity.
Qed.

Lemma parse_members_join (fields : list (string * Json)) :
  Forall (fun kv => reads_back (snd kv)) fields ->
  fields <> [] ->
  forall fuel rest,
    (List.length
       (join [TComma]
          (List.map (fun kv => TString (fst kv) :: TColon :: toks (snd kv)) fields))
     + 1 <= fuel)%nat ->
    parse_members fuel
      (join [TComma]
         (List.map (fun kv => TString (fst kv) :: TColon :: toks (snd kv)) fields)
       ++ TRBrace :: rest)%list
    = Some (fields, rest).
Proof.
  induction 1 as [|[k v] fields Hv Hall IH]; intros Hne fuel rest Hfuel;
    [congruence|].
  destruct fuel as [|fuel]; [lia|]. cbn [fst snd] in Hv.
  destruct fields as [|kv fields].
  - cbn [List.map join fst snd] in *. cbn [parse_members app List.length] in *.
    rewrite Hv by lia. reflexivity.
  - cbn [List.map] in *. rewrite join_cons2 in *. cbn [fst snd] in *.
    rewrite !length_app in Hfuel. cbn [List.length] in Hfuel.
    rewrite <- !app_assoc. cbn [parse_members app].
    rewrite Hv by lia. cbn [app].
    rewrite IH by (try discriminate; lia). reflexivity.
Qed.

Lemma parse_toks (j : Json) : reads_back j.
Proof.
  induction j as [b|n|s|items Hitems|fields Hfields] using Json_nested_ind;
    intros fuel rest Hfuel.
  - destruct fuel; [cbn in Hfuel; lia|reflexivity].
  - destruct fuel; [cbn in Hfuel; lia|reflexivity].
  - destruct fuel; [cbn in Hfuel; lia|reflexivity].
  - cbn [toks] in *. cbn [List.length] in Hfuel. rewrite length_app in Hfuel.
    cbn [List.length] in Hfuel.
    destruct fuel as [|fuel]; [lia|].
    destruct items as [|x items]; [reflexivity|].
    cbn [app]. rewrite <- app_assoc. cbn [app].
    assert (Hrec := parse_elements_join (x :: items) Hitems ltac:(discriminate)
                      fuel rest ltac:(lia)).
    destruct (toks_head x) as (t & ts & E & Ht).
    assert (Hjoin : exists ts', join [TComma] (List.map toks (x :: items)) = t :: ts').
    { destruct items; cbn [List.map]; [|rewrite join_cons2];
        cbn [join]; rewrite E; eexists; reflexivity. }
    destruct Hjoin as (ts' & Hjoin). rewrite Hjoin in *.
    cbn [app parse_value] in *.
    destruct t; try discriminate; cbn [app] in Hrec; rewrite Hrec; reflexivity.
  - rewrite toks_object in *. cbn [List.length] in Hfuel.
    rewrite length_app in Hfuel. cbn [List.length] in Hfuel.
    destruct fuel as [|fuel]; [lia|].
    destruct fields as [|kv fields]; [reflexivity|].
    cbn [app]. rewrite <- app_assoc. cbn [app].
    assert (Hrec := parse_members_join (kv :: fields) Hfields ltac:(discriminate)
                      fuel rest ltac:(lia)).
    assert (Hjoin : exists ts',
               join [TComma]
                 (List.map (fun kv => TString (fst kv) :: TColon :: toks (snd kv))
                           (kv :: fields))
               = TString (fst kv) :: ts').
    { destruct fields; cbn [List.map]; [|rewrite join_cons2];
        cbn [join app]; eexists; reflexivity. }
    destruct Hjoin as (ts' & Hjoin). rewrite Hjoin in *.
    cbn [app parse_value] in *. rewrite Hrec. reflexivity.
Qed.

(** *** From the text to the tokens *)

Lemma lex_quoted_char (a : ascii) (acc tail : string) :
  lex (LexString acc) (quoteJsonChar a ++ tail)
  = lex (LexString (acc ++ str1 a)) tail.
Proof.
  destruct a as [[] [] [] [] [] [] [] []]; reflexivity.
Qed.

Lemma lex_quoted (s : string) :
  forall acc rest,
    lex (LexString acc) (quoteJsonChars s ++ String dquote rest)
    = option_map (cons (TString (acc ++ s))) (lex LexStart rest).
Proof.
  induction s as [|a s IH]; intros acc rest.
  - cbn [quoteJsonChars append]. rewrite append_empty_r. reflexivity.
  - cbn [quoteJsonChars]. rewrite append_assoc, lex_quoted_char, IH.
    rewrite append_assoc. reflexivity.
Qed.

Lemma lex_string_literal (s rest : string) (ts : list Token) :
  lex LexStart rest = Some ts ->
  lex LexStart (quoteJsonString s ++ rest) = Some (TString s :: ts).
Proof.
  intros Hrest. unfold quoteJsonString. rewrite !append_assoc.
  change (lex LexStart (str1 dquote ++ quoteJsonChars s ++ str1 dquote ++ rest))
    with (option_map (@app Token [])
            (lex (LexString EmptyString) (quoteJsonChars s ++ String dquote rest))).
  rewrite lex_quoted, Hrest. reflexivity.
Qed.

(** Numbers. *)

Lemma uint_string_digits (d : Decimal.uint) :
  all_chars number_char (NilEmpty.string_of_uint d) = true.
Proof. induction d; cbn [NilEmpty.string_of_uint all_chars]; auto. Qed.

Lemma number_string (n : Z) :
  exists a s,
    NilZero.string_of_int (Z.to_int n) = String a s /\
    number_char a = true /\ all_chars number_char s = true.
Proof.
  assert (Huint : forall d, d <> Decimal.Nil ->
            exists a s, NilEmpty.string_of_uint d = String a s /\
                        number_char a = true /\ all_chars number_char s = true).
  { intros d Hd. pose proof (uint_string_digits d) as Hall.
    destruct d; try congruence; cbn [NilEmpty.string_of_uint all_chars] in *;
      eexists _, _; (split; [reflexivity|]); split;
      solve [reflexivity | exact Hall]. }
  destruct n as [|p|p]; cbn [Z.to_int NilZero.string_of_int].
  - exists "0"%char, EmptyString. auto.
  - pose proof (DecimalPos.Unsigned.to_uint_nonnil p) as Hp.
    unfold NilZero.string_of_uint. destruct (Pos.to_uint p) eqn:E; try congruence;
      rewrite <- E; apply Huint; congruence.
  - pose proof (DecimalPos.Unsigned.to_uint_nonnil p) as Hp.
    exists "-"%char, (NilZero.string_of_uint (Pos.to_uint p)).
    split; [reflexivity|]. split; [reflexivity|].
    unfold NilZero.string_of_uint.
    destruct (Pos.to_uint p); try congruence; apply uint_string_digits.
Qed.

Lemma number_token_string (n : Z) :
  number_token (NilZero.string_of_int (Z.to_int n)) = Some (TNumber n).
Proof.
  unfold number_token.
  rewrite NilZero.isi.
  - rewrite DecimalZ.of_to, String.eqb_refl. reflexivity.
  - destruct n; cbn [Z.to_int]; [discriminate| |discriminate].
    intros [= E]. now apply DecimalPos.Unsigned.to_uint_nonnil in E.
  - destruct n; cbn [Z.to_int]; [discriminate|discriminate|].
    intros [= E]. now apply DecimalPos.Unsigned.to_uint_nonnil in E.
Qed.

(** What follows a finished number or word is read from the start. *)
Lemma lex_after_number (acc rest : string) (t : Token) (ts : list Token) :
  boundary rest = true ->
  number_token acc = Some t ->
  lex LexStart rest = Some ts ->
  lex (LexNumber acc) rest = Some (t :: ts).
Proof.
  intros Hb Ht Hrest. destruct rest as [|a rest].
  - cbn [lex] in *. rewrite Ht. now injection Hrest as <-.
  - cbn [boundary] in Hb. apply andb_true_iff in Hb as [Hn _].
    apply negb_true_iff in Hn. cbn [lex] in *. rewrite Hn, Ht.
    destruct (lex_start a) as [[ts' st']|]; [|discriminate].
    destruct (lex st' rest); [|discriminate].
    cbn [option_map] in *. now injection Hrest as <-.
Qed.

Lemma lex_number_run (s : string) :
  forall acc rest t ts,
    all_chars number_char s = true ->
    boundary rest = true ->
    number_token (acc ++ s) = Some t ->
    lex LexStart rest = Some ts ->
    lex (LexNumber acc) (s ++ rest) = Some (t :: ts).
Proof.
  induction s as [|a s IH]; intros acc rest t ts Hall Hb Ht Hrest.
  - rewrite append_empty_r in Ht. now apply lex_after_number.
  - cbn [all_chars] in Hall. apply andb_true_iff in Hall as [Ha Hall].
    cbn [append lex]. rewrite Ha. apply IH; auto.
    now rewrite append_assoc.
Qed.

Lemma lex_number (n : Z) (rest : string) (ts : list Token) :
  boundary rest = true ->
  lex LexStart rest = Some ts ->
  lex LexStart (NilZero.string_of_int (Z.to_int n) ++ rest) = Some (TNumber n :: ts).
Proof.
  intros Hb Hrest.
  destruct (number_string n) as (a & s & E & Ha & Hall).
  pose proof (number_token_string n) as Ht. rewrite E in *.
  cbn [append lex]. unfold lex_start.
  assert (Hstart : lex_start a = Some ([], LexNumber (str1 a))).
  { unfold lex_start. revert Ha. clear.
    destruct a as [[] [] [] [] [] [] [] []]; cbv; congruence. }
  fold (lex_start a). rewrite Hstart.
  rewrite (lex_number_run s (str1 a) rest (TNumber n) ts Hall Hb Ht Hrest).
  reflexivity.
Qed.

Lemma lex_after_word (acc rest : string) (t : Token) (ts : list Token) :
  boundary rest = true ->
  word_token acc = Some t ->
  lex LexStart rest = Some ts ->
  lex (LexWord acc) rest = Some (t :: ts).
Proof.
  intros Hb Ht Hrest. destruct rest as [|a rest].
  - cbn [lex] in *. rewrite Ht. now injection Hrest as <-.
  - cbn [boundary] in Hb. apply andb_true_iff in Hb as [_ Hw].
    apply negb_true_iff in Hw. cbn [lex] in *. rewrite Hw, Ht.
    destruct (lex_start a) as [[ts' st']|]; [|discriminate].
    destruct (lex st' rest); [|discriminate].
    cbn [option_map] in *. now injection Hrest as <-.
Qed.

Lemma lex_bool (b : bool) (rest : string) (ts : list Token) :
  boundary rest = true ->
  lex LexStart rest = Some ts ->
  lex LexStart ((if b then "true" else "false") ++ rest) = Some (TBool b :: ts).
Proof.
  intros Hb Hrest. destruct b.
  - change (lex LexStart ("true" ++ rest))
      with (option_map (@app Token []) (lex (LexWord "true") rest)).
    now rewrite (lex_after_word "true" rest (TBool true) ts).
  - change (lex LexStart ("false" ++ rest))
      with (option_map (@app Token []) (lex (LexWord "false") rest)).
    now rewrite (lex_after_word "false" rest (TBool false) ts).
Qed.

(** Values, without white space. *)

Lemma concat_cons2 (sep x y : string) (ls : list string) :
  String.concat sep (x :: y :: ls) = x ++ sep ++ String.concat sep (y :: ls).
Proof. reflexivity. Qed.

Lemma lex_punct (a : ascii) (t : Token) (rest : string) (ts : list Token) :
  lex_start a = Some ([t], LexStart) ->
  lex LexStart rest = Some ts ->
  lex LexStart (String a rest) = Some (t :: ts).
Proof. intros Ha Hrest. cbn [lex]. now rewrite Ha, Hrest. Qed.

Lemma lex_elements (items : list Json) :
  Forall lexes items ->
  forall rest ts,
    boundary rest = true ->
    lex LexStart rest = Some ts ->
    lex LexStart (String.concat "," (List.map stringify items) ++ rest)
    = Some (join [TComma] (List.map toks items) ++ ts)%list.
Proof.
  induction 1 as [|x items Hx Hall IH]; intros rest ts Hb Hrest; [exact Hrest|].
  destruct items as [|y items].
  - cbn [List.map String.concat join]. now apply Hx.
  - cbn [List.map] in *. rewrite concat_cons2, join_cons2, !append_assoc.
    rewrite <- !app_assoc. apply Hx; [reflexivity|].
    apply lex_punct; [reflexivity|]. now apply IH.
Qed.

Lemma lex_members (fields : list (string * Json)) :
  Forall (fun kv => lexes (snd kv)) fields ->
  forall rest ts,
    boundary rest = true ->
    lex LexStart rest = Some ts ->
    lex LexStart
      (String.concat ","
         (List.map (fun kv => quoteJsonString (fst kv) ++ ":" ++ stringify (snd kv))
                   fields) ++ rest)
    = Some (join [TComma]
              (List.map (fun kv => TString (fst kv) :: TColon :: toks (snd kv)) fields)
            ++ ts)%list.
Proof.
  induction 1 as [|[k v] fields Hv Hall IH]; intros rest ts Hb Hrest;
    [exact Hrest|].
  cbn [fst snd] in Hv. destruct fields as [|kv fields].
  - cbn [List.map String.concat join fst snd]. rewrite !append_assoc.
    cbn [app]. apply lex_string_literal. apply lex_punct; [reflexivity|].
    now apply Hv.
  - cbn [List.map] in *. rewrite concat_cons2, join_cons2. cbn [fst snd].
    rewrite !append_assoc, <- !app_assoc. cbn [app].
    apply lex_string_literal. apply lex_punct; [reflexivity|].
    apply Hv; [reflexivity|].
    apply lex_punct; [reflexivity|]. now apply IH.
Qed.

Lemma lex_stringify (j : Json) : lexes j.
Proof.
  induction j as [b|n|s|items Hitems|fields Hfields] using Json_nested_ind;
    intros rest ts Hb Hrest.
  - destruct b; [apply (lex_bool true)|apply (lex_bool false)]; assumption.
  - now apply lex_number.
  - now apply lex_string_literal.
  - cbn [stringify toks]. rewrite !append_assoc.
    cbn [app]. rewrite <- app_assoc. cbn [app].
    apply lex_punct; [reflexivity|].
    apply lex_elements; [assumption|reflexivity|].
    apply lex_punct; [reflexivity|assumption].
  - rewrite stringify_object, toks_object, !append_assoc.
    cbn [app]. rewrite <- app_assoc. cbn [app].
    apply lex_punct; [reflexivity|].
    apply lex_members; [assumption|reflexivity|].
    apply lex_punct; [reflexivity|assumption].
Qed.

(** [JSON.parse] reads back what [JSON.stringify] prints. *)
Lemma JSON_parse_stringify (j : Json) :
  plain j = true -> JSON_parse (stringify j) = Some j.
Proof.
  intros Hplain. unfold JSON_parse.
  pose proof (lex_stringify j EmptyString [] eq_refl eq_refl) as Hlex.
  rewrite append_empty_r, app_nil_r in Hlex. rewrite Hlex.
  pose proof (parse_toks j (S (List.length (toks j))) [] ltac:(lia)) as Hparse.
  rewrite app_nil_r in Hparse. rewrite Hparse, Hplain. reflexivity.
Qed.

(** Values, with a gap. *)

Lemma all_chars_append (f : ascii -> bool) (a b : string) :
  all_chars f (a ++ b) = all_chars f a && all_chars f b.
Proof.
  induction a as [|c a IH]; cbn [append all_chars]; [reflexivity|].
  now rewrite IH, andb_assoc.
Qed.

Lemma lex_blank (w : string) (rest : string) (ts : list Token) :
  all_chars json_space w = true ->
  lex LexStart rest = Some ts ->
  lex LexStart (w ++ rest) = Some ts.
Proof.
  induction w as [|a w IH]; cbn [all_chars append]; intros Hw Hrest; [exact Hrest|].
  apply andb_true_iff in Hw as [Ha Hw].
  cbn [lex]. unfold lex_start. rewrite Ha, (IH Hw Hrest). reflexivity.
Qed.

Lemma spaces_blank (n : nat) : all_chars json_space (spaces n) = true.
Proof. induction n; cbn [spaces all_chars]; auto. Qed.

Section Gap.
Variable gap : string.
Hypothesis Hgap : all_chars json_space gap = true.

Lemma stringify_gap_object (indent : string) (kv : string * Json)
    (fields : list (string * Json)) :
  stringify_gap gap indent (JObj (kv :: fields))
  = "{" ++ newline ++ (indent ++ gap)
    ++ String.concat ("," ++ newline ++ (indent ++ gap))
         (List.map (fun kv => quoteJsonString (fst kv) ++ ": "
                              ++ stringify_gap gap (indent ++ gap) (snd kv))
                   (kv :: fields))
    ++ newline ++ indent ++ "}".
Proof.
  destruct kv as [k v]. cbn [stringify_gap List.map fst snd].
  do 6 f_equal.
  induction fields as [|[k' v'] l IH]; [reflexivity|].
  cbn [List.map fst snd]. now rewrite IH.
Qed.

Lemma lex_separator (inner rest : string) (ts : list Token) :
  all_chars json_space inner = true ->
  lex LexStart rest = Some ts ->
  lex LexStart (("," ++ newline ++ inner) ++ rest) = Some (TComma :: ts).
Proof.
  intros Hinner Hrest. rewrite !append_assoc.
  apply lex_punct; [reflexivity|].
  apply lex_blank; [reflexivity|]. now apply lex_blank.
Qed.

Lemma lex_elements_gap (inner : string) (items : list Json) :
  all_chars json_space inner = true ->
  Forall (lexes_gap gap) items ->
  forall rest ts,
    boundary rest = true ->
    lex LexStart rest = Some ts ->
    lex LexStart
      (String.concat ("," ++ newline ++ inner)
         (List.map (stringify_gap gap inner) items) ++ rest)
    = Some (join [TComma] (List.map toks items) ++ ts)%list.
Proof.
  intros Hinner.
  induction 1 as [|x items Hx Hall IH]; intros rest ts Hb Hrest; [exact Hrest|].
  destruct items as [|y items].
  - cbn [List.map String.concat join]. now apply Hx.
  - cbn [List.map] in *. rewrite concat_cons2, join_cons2.
    rewrite (append_assoc (stringify_gap gap inner x)).
    rewrite (append_assoc ("," ++ newline ++ inner)).
    rewrite <- !app_assoc. cbn [app].
    apply Hx; [assumption|reflexivity|].
    apply lex_separator; [assumption|]. now apply IH.
Qed.

Lemma lex_members_gap (inner : string) (fields : list (string * Json)) :
  all_chars json_space inner = true ->
  Forall (fun kv => lexes_gap gap (snd kv)) fields ->
  forall rest ts,
    boundary rest = true ->
    lex LexStart rest = Some ts ->
    lex LexStart
      (String.concat ("," ++ newline ++ inner)
         (List.map (fun kv => quoteJsonString (fst kv) ++ ": "
                              ++ stringify_gap gap inner (snd kv)) fields)
       ++ rest)
    = Some (join [TComma]
              (List.map (fun kv => TString (fst kv) :: TColon :: toks (snd kv)) fields)
            ++ ts)%list.
Proof.
  intros Hinner.
  induction 1 as [|[k v] fields Hv Hall IH]; intros rest ts Hb Hrest;
    [exact Hrest|].
  cbn [fst snd] in Hv. destruct fields as [|kv fields].
  - cbn [List.map String.concat join fst snd]. rewrite !append_assoc.
    cbn [app]. apply lex_string_literal. apply lex_punct; [reflexivity|].
    apply (lex_blank " "); [reflexivity|]. now apply Hv.
  - cbn [List.map] in *. rewrite concat_cons2, join_cons2. cbn [fst snd].
    rewrite (append_assoc (quoteJsonString k ++ ": " ++ stringify_gap gap inner v)).
    rewrite (append_assoc ("," ++ newline ++ inner)).
    rewrite !(append_assoc (quoteJsonString k)), <- !app_assoc. cbn [app].
    apply lex_string_literal. apply lex_punct; [reflexivity|].
    apply (lex_blank " "); [reflexivity|].
    rewrite append_assoc.
    apply Hv; [assumption|reflexivity|].
    apply lex_separator; [assumption|]. now apply IH.
Qed.

Lemma lex_stringify_gap (j : Json) : lexes_gap gap j.
Proof.
  induction j as [b|n|s|items Hitems|fields Hfields] using Json_nested_ind;
    intros indent rest ts Hindent Hb Hrest.
  - destruct b; [apply (lex_bool true)|apply (lex_bool false)]; assumption.
  - now apply lex_number.
  - now apply lex_string_literal.
  - destruct items as [|x items].
    + cbn [stringify_gap toks List.map join app].
      apply lex_punct; [reflexivity|]. apply lex_punct; [reflexivity|assumption].
    + assert (Hinner : all_chars json_space (indent ++ gap) = true)
        by (rewrite all_chars_append, Hindent, Hgap; reflexivity).
      cbn [stringify_gap toks]. rewrite !append_assoc.
      cbn [app]. rewrite <- app_assoc. cbn [app].
      apply lex_punct; [reflexivity|].
      apply lex_blank; [reflexivity|].
      rewrite <- append_assoc. apply lex_blank; [assumption|].
      apply lex_elements_gap; [assumption|assumption|reflexivity|].
      apply lex_blank; [reflexivity|]. apply lex_blank; [assumption|].
      apply lex_punct; [reflexivity|assumption].
  - destruct fields as [|kv fields].
    + cbn [stringify_gap toks join app].
      apply lex_punct; [reflexivity|]. apply lex_punct; [reflexivity|assumption].
    + assert (Hinner : all_chars json_space (indent ++ gap) = true)
        by (rewrite all_chars_append, Hindent, Hgap; reflexivity).
      rewrite stringify_gap_object, toks_object, !append_assoc.
      cbn [app]. rewrite <- app_assoc. cbn [app].
      apply lex_punct; [reflexivity|].
      apply lex_blank; [reflexivity|].
      rewrite <- append_assoc. apply lex_blank; [assumption|].
      apply lex_members_gap; [assumption|assumption|reflexivity|].
      apply lex_blank; [reflexivity|]. apply lex_blank; [assumption|].
      apply lex_punct; [reflexivity|assumption].
Qed.
End Gap.

(** [JSON.parse] reads back what [JSON.stringify] prints with spaces. *)
Lemma JSON_parse_stringify_space (space : nat) (j : Json) :
  plain j = true -> JSON_parse (stringify_space space j) = Some j.
Proof.
  intros Hplain. unfold stringify_space.
  destruct (Nat.min space 10) as [|n]; [now apply JSON_parse_stringify|].
  unfold JSON_parse.
  pose proof (lex_stringify_gap (spaces (S n)) (spaces_blank (S n)) j
                EmptyString EmptyString [] eq_refl eq_refl eq_refl) as Hlex.
  rewrite append_empty_r, app_nil_r in Hlex. rewrite Hlex.
  pose proof (parse_toks j (S (List.length (toks j))) [] ltac:(lia)) as Hparse.
  rewrite app_nil_r in Hparse. rewrite Hparse, Hplain. reflexivity.
Qed.

(** ** The write command, run *)

(** The script of the module writes the parsed argument, printed with two
    spaces, to the config path. *)
Lemma node_e_writeScript (text : string) :
  node_e writeScript [text]
  = match JSON_parse text with
    | Some value => Some (configPath, stringify_space 2 value)
    | None => None
    end.
Proof. reflexivity. Qed.

Lemma run_writeCmd (config : Json) (fs : FileSystem) :
  plain config = true ->
  content fs "/root" = None ->
  content fs "/root/.openclaw" = None ->
  is_dir fs configPath = false ->
  exists fs',
    sh_run (writeCmd (stringify config)) fs = Some fs' /\
    content fs' configPath = Some (stringify_space 2 config) /\
    (forall path, String.eqb path configPath = false ->
                  content fs' path = content fs path).
Proof.
  intros Hplain Hroot Hdir Hfile.
  unfold sh_run. rewrite sh_commands_writeCmd.
  cbn [run_and_list run_command].
  rewrite node_e_writeScript, (JSON_parse_stringify config Hplain).
  unfold mkdir_p.
  change (parents "/root/.openclaw" ++ ["/root/.openclaw"])%list
    with ["/root"; "/root/.openclaw"].
  cbn [existsb]. rewrite Hroot, Hdir. cbn [orb].
  unfold writeFileSync. cbn [is_dir content].
  change (dirname configPath) with "/root/.openclaw".
  unfold dir_exists. cbn [is_dir].
  change (existsb (String.eqb configPath) ["/root"; "/root/.openclaw"]) with false.
  change (existsb (String.eqb "/root/.openclaw") ["/root"; "/root/.openclaw"])
    with true.
  rewrite Hfile, orb_true_r. cbn [orb negb].
  eexists. split; [reflexivity|]. cbn [content]. split.
  - now rewrite String.eqb_refl.
  - intros path Hpath. now rewrite Hpath.
Qed.

Lemma plain_buildConfig {imp : Imports} (env : MoltbotEnv)
    (providerConfig : list (string * Json)) (defaultModel : string) :
  selectProvider env = Some (providerConfig, defaultModel) ->
  plain (buildConfig env providerConfig defaultModel) = true.
Proof.
  unfold selectProvider, buildConfig.
  destruct (key (GEMINI_API_KEY env));
    [|destruct (key (ANTHROPIC_API_KEY env));
      [|destruct (key (OPENAI_API_KEY env)); [|discriminate]]];
    intros [= <- <-];
    destruct (truthy (or_else (MOLTBOT_GATEWAY_TOKEN env) EmptyString));
    reflexivity.
Qed.

(** C10: for every serialized configuration, the shell reads the write
    command as [mkdir -p /root/.openclaw] followed by [node -e] with the
    script and one argument, which is exactly the serialized configuration;
    run on a file system where neither [/root] nor [/root/.openclaw] is a
    file and the config path is no directory, the command succeeds and
    leaves in [/root/.openclaw/openclaw.json] the configuration printed
    with two spaces, a document that parses to the configuration that was
    serialized; the configurations the module builds are of the kind this
    holds for. *)
Theorem escaping_round_trip :
  (forall configJson,
      sh_commands (writeCmd configJson)
      = Some [["mkdir"; "-p"; "/root/.openclaw"];
              ["node"; "-e"; writeScript; configJson]]) /\
  (forall (config : Json) (fs : FileSystem),
      plain config = true ->
      content fs "/root" = None ->
      content fs "/root/.openclaw" = None ->
      is_dir fs configPath = false ->
      exists fs',
        sh_run (writeCmd (stringify config)) fs = Some fs' /\
        content fs' configPath = Some (stringify_space 2 config) /\
        JSON_parse (stringify_space 2 config) = Some config) /\
  (forall (imp : Imports) (env : MoltbotEnv)
          (providerConfig : list (string * Json)) (defaultModel : string),
      selectProvider env = Some (providerConfig, defaultModel) ->
      plain (buildConfig env providerConfig defaultModel) = true).
Proof.
  split; [exact sh_commands_writeCmd|]. split.
  - intros config fs Hplain Hroot Hdir Hfile.
    destruct (run_writeCmd config fs Hplain Hroot Hdir Hfile)
      as (fs' & Hrun & Hcontent & _).
    exists fs'. split; [exact Hrun|]. split; [exact Hcontent|].
    now apply JSON_parse_stringify_space.
  - intros imp env providerConfig defaultModel.
    apply plain_buildConfig.
Qed.

Lemma escaping_round_trip_witness :
  exists fs',
    sh_run (writeCmd (stringify quoted_config)) empty_fs = Some fs' /\
    content fs' configPath = Some (stringify_space 2 quoted_config) /\
    JSON_parse (stringify_space 2 quoted_config) = Some quoted_config.
Proof.
  destruct escaping_round_trip as (_ & Hrun & Hplain).
  apply (Hrun quoted_config empty_fs).
  - exact (Hplain sample_imports quoted_key _ _ eq_refl).
  - reflexivity.
  - reflexivity.
  - reflexivity.
Defined.
